(** * AuthService: a shallow embedding of the authentication micro-service

    The service class [AuthService] (register, login, verify, change
    password, update profile) is embedded as functions in a small
    state-and-exception monad over a [World] that holds the user
    collection, the logger output, the wall clock and the entropy
    consumed by the password hasher.

    The three collaborators of the service are not part of the
    repository; they are modelled by their documented contracts:
    - the Mongoose model [usersRepository] ([findOne], [create],
      [findOneAndUpdate]) as operations on an ordered list of documents;
    - [bcrypt] as a type class [Hasher] (salted hash, compare);
    - [JwtService] as a type class [JwtCodec] (encode, decode) on top of
      which [sign] and [verify] add the issued-at and expiry claims. *)

From Stdlib Require Import Ascii.
From stdpp Require Import strings pretty infinite countable fin_maps gmap list.

Open Scope string_scope.
Open Scope list_scope.
Open Scope nat_scope.

(** ** Exceptions *)

(** What a [throw] can carry: an [RpcException] built from an object with
    a status and a message, or any other JavaScript [Error] (thrown by the
    driver, by jsonwebtoken or by bcrypt), which only has a message. *)
Inductive Exn : Type :=
  | RpcException (status : nat) (msg : string)
  | JsError (msg : string).

(** [error.message] *)
Definition message (e : Exn) : string :=
  match e with
  | RpcException _ m => m
  | JsError m => m
  end.

(** The errors the service raises by itself, under the names of the
    error taxonomy. *)
Definition AlreadyExists : Exn := RpcException 400 "User already exists".
Definition InvalidCredentials : Exn := RpcException 400 "User/Password not valid".
Definition UserNotValid : Exn := RpcException 400 "User not valid".
Definition PasswordNotValid : Exn := RpcException 400 "Password not valid".
Definition NotUpdated : Exn :=
  RpcException 400 "User's information could not be updated".

Inductive Result (A : Type) : Type :=
  | Ok (a : A)
  | Throw (e : Exn).
Arguments Ok {A} a.
Arguments Throw {A} e.

(** The value of a run that returned. *)
Definition fst_ok {A S} (out : Result A * S) : option A :=
  match fst out with
  | Ok a => Some a
  | Throw _ => None
  end.

(** ** Documents and the world *)

(** Modelled from the spec: the entity class [User] is not among the
    sources. A user has an id generated by the store, an email, a
    username, a password and arbitrary profile fields; a stored document
    is therefore an object with string fields, among them ["_id"],
    ["email"], ["username"] and ["password"], and this is also what
    [toObject()] shows. *)
Abbreviation Doc := (gmap string string).

Record World : Type := mkWorld {
  docs : list Doc;            (* the users collection, in insertion order *)
  outage : option string;     (* [Some m]: every store call rejects with [m] *)
  logged : list Exn;          (* what [logger.error] has received *)
  clock : nat;                (* seconds since the epoch *)
  entropy : nat               (* randomness handed to the salt generator *)
}.

Definition set_docs (ds : list Doc) (w : World) : World :=
  mkWorld ds (outage w) (logged w) (clock w) (entropy w).
Definition set_logged (l : list Exn) (w : World) : World :=
  mkWorld (docs w) (outage w) l (clock w) (entropy w).
Definition set_entropy (n : nat) (w : World) : World :=
  mkWorld (docs w) (outage w) (logged w) (clock w) n.

(** Time passing between two requests. *)
Definition elapse (dt : nat) (w : World) : World :=
  mkWorld (docs w) (outage w) (logged w) (clock w + dt)%nat (entropy w).

(** ** The monad of service methods: state plus exceptions *)

Definition M (A : Type) : Type := World → Result A * World.

Definition ret {A} (a : A) : M A := λ w, (Ok a, w).

Definition throw {A} (e : Exn) : M A := λ w, (Throw e, w).

Definition bind {A B} (m : M A) (k : A → M B) : M B := λ w,
  match m w with
  | (Ok a, w') => k a w'
  | (Throw e, w') => (Throw e, w')
  end.

(** [try { body } catch (error) { handler }]: effects of [body] that
    happened before the throw are kept. *)
Definition tryCatch {A} (body : M A) (handler : Exn → M A) : M A := λ w,
  match body w with
  | (Ok a, w') => (Ok a, w')
  | (Throw e, w') => handler e w'
  end.

Global Instance M_ret : MRet M := @ret.
Global Instance M_bind : MBind M := λ A B k m, bind m k.

(** [this.logger.error(error)] *)
Definition logger_error (e : Exn) : M unit := λ w,
  (Ok tt, set_logged (logged w ++ [e]) w).

(** ** The user store (Mongoose model) *)

(** [String(x)] on a field that may be [undefined]. *)
Definition String_ (o : option string) : string := default "undefined" o.

(** The documents matching a one-field filter [{field: v}]; an undefined
    value matches the documents that lack the field. *)
Definition find_by (field : string) (v : option string) (ds : list Doc)
  : option (nat * Doc) :=
  list_find (λ d : Doc, d !! field = v) ds.

Definition ids_of (ds : list Doc) : list (option string) :=
  (λ d : Doc, d !! "_id") <$> ds.
Definition emails_of (ds : list Doc) : list (option string) :=
  (λ d : Doc, d !! "email") <$> ds.

(** What the collection guarantees by itself: the primary key and the
    unique index on [email]. *)
Definition store_ok (w : World) : Prop :=
  NoDup (ids_of (docs w)) ∧ NoDup (emails_of (docs w)).

(** [usersRepository.findOne({ field: v })]: first match or [null]. *)
Definition findOne (field : string) (v : option string) : M (option Doc) := λ w,
  match outage w with
  | Some m => (Throw (JsError m), w)
  | None => (Ok (snd <$> find_by field v (docs w)), w)
  end.

(** [usersRepository.create(obj)]: the store picks an [_id] that no
    document has, unless the object brings its own; the primary key and
    the unique index on [email] reject duplicates. *)
Definition create (obj : Doc) : M Doc := λ w,
  match outage w with
  | Some m => (Throw (JsError m), w)
  | None =>
      let doc :=
        match obj !! "_id" with
        | Some _ => obj
        | None => <["_id" := fresh (omap id (ids_of (docs w)))]> obj
        end in
      if decide (doc !! "_id" ∈ ids_of (docs w)) then
        (Throw (JsError "E11000 duplicate key error index: _id"), w)
      else if decide (doc !! "email" ∈ emails_of (docs w)) then
        (Throw (JsError "E11000 duplicate key error index: email"), w)
      else (Ok doc, set_docs (docs w ++ [doc]) w)
  end.

(** The write is refused when it would change [_id] or give the document
    an email that another document holds. *)
Definition update_accepted (ds : list Doc) (i : nat) (d d' : Doc) : Prop :=
  d' !! "_id" = d !! "_id" ∧ d' !! "email" ∉ emails_of (delete i ds).

Global Instance update_accepted_dec ds i d d' : Decision (update_accepted ds i d d').
Proof. unfold update_accepted. apply _. Defined.

(** [usersRepository.findOneAndUpdate(filter, update)] where the filter
    selects by [_id] (both call sites do: one passes the ObjectId itself,
    the other [{_id: id}]). No option is passed, so the call resolves to
    the document as it was found, before [update] was merged into it. *)
Definition findOneAndUpdate (id_ : option string) (update : Doc)
  : M (option Doc) := λ w,
  match outage w with
  | Some m => (Throw (JsError m), w)
  | None =>
      match find_by "_id" id_ (docs w) with
      | None => (Ok None, w)
      | Some (i, d) =>
          let d' := update ∪ d in
          if decide (update_accepted (docs w) i d d') then
            (Ok (Some d), set_docs (<[i := d']> (docs w)) w)
          else if decide (d' !! "_id" = d !! "_id") then
            (Throw (JsError "E11000 duplicate key error index: email"), w)
          else
            (Throw (JsError "Performing an update on the path '_id' would modify the immutable field '_id'"), w)
      end
  end.

(** ** The password hasher (bcrypt) *)

(** [hashWith rounds e data] is the hash string obtained with the salt
    drawn from entropy [e]; [compareSync data encrypted] re-hashes [data]
    with the salt stored in [encrypted]. *)
Class Hasher : Type := {
  hashWith : nat → nat → string → string;
  compareSync : string → string → bool;
  compare_hashWith : ∀ rounds e data, compareSync data (hashWith rounds e data) = true
}.

(** ** Token payloads and responses *)

Module JwtPayload.
(** Modelled from the spec: the interface [JwtPayload] is not among the
    sources. The payload has an id, an email and a username; the two call
    sites of [signJWT] fill the last two from fields of a document, which
    can be [undefined]. *)
Record t : Type := mk {
  id : string;
  email : option string;
  username : option string
}.
End JwtPayload.

Module Claims.
(** The decoded content of a token: the payload and the standard claims
    subject, issued-at and expiry. A token that verifies was produced by
    [sign], so what [verify] returns has this shape. *)
Record t : Type := mk {
  payload : JwtPayload.t;
  sub : option string;
  iat : nat;
  exp : option nat
}.
End Claims.

(** The cryptographic core of the token service: [jwt_encode key c] is
    the signed token for the claims [c], and [jwt_decode key token] gives
    the claims back when the signature matches. *)
Class JwtCodec : Type := {
  jwt_encode : string → Claims.t → string;
  jwt_decode : string → string → option Claims.t;
  jwt_decode_encode : ∀ key c, jwt_decode key (jwt_encode key c) = Some c
}.

Module RegisterUserDto.
(** Modelled from the spec: the class [RegisterUserDto] is not among the
    sources. A registration carries an email, a password and further
    profile fields (the username among them). *)
Record t : Type := mk {
  email : string;
  password : string;
  profile : Doc
}.
(** The request body as the object that the service spreads. *)
Definition to_object (dto : t) : Doc :=
  <["email" := email dto]> (<["password" := password dto]> (profile dto)).
End RegisterUserDto.

Module LoginUserDto.
(** Modelled from the spec: the class [LoginUserDto] is not among the
    sources. A login carries an email and a password. *)
Record t : Type := mk {
  email : string;
  password : string
}.
End LoginUserDto.

Module ChangePasswordDto.
(** The four string fields of the class; the decorators on them are
    enforced before the service is called, not by the service. *)
Record t : Type := mk {
  token : string;
  password : string;
  newPassword : string;
  repeatNewPassword : string
}.
End ChangePasswordDto.

Module UpdateUserDto.
(** Modelled from the spec: the class [UpdateUserDto] is not among the
    sources. An update carries the id of the user and a partial set of
    arbitrary fields. *)
Record t : Type := mk {
  id : string;
  fields : Doc
}.
(** The request body as the object that the service passes on. *)
Definition to_object (dto : t) : Doc := <["id" := id dto]> (fields dto).
End UpdateUserDto.

(** The response types are the object literals that the methods return. *)
Module RegisterUserResponse.
Record t : Type := mk { data : Doc; token : string; message : string }.
End RegisterUserResponse.

Module LoginUserResponse.
Record t : Type := mk { user : Doc; token : string; message : string }.
End LoginUserResponse.

Module VerifyUserResponse.
Record t : Type := mk { user : JwtPayload.t; token : string; message : string }.
End VerifyUserResponse.

Module ChangePasswordResponse.
Record t : Type := mk { data : option Doc; message : string }.
End ChangePasswordResponse.

Module UpdateUserResponse.
Record t : Type := mk { data : Doc; message : string }.
End UpdateUserResponse.

(** * The service *)

(** Modelled from the spec: the configuration module and the module
    registration are not among the sources. The token service consumes a
    signing secret and may stamp tokens with an expiry; the fields are the
    options the JwtModule was registered with ([secret],
    [signOptions.expiresIn] in seconds) and [envs.jwtSecret]. *)
Record Config : Type := mkConfig {
  moduleSecret : string;
  expiresIn : option nat;
  envs_jwtSecret : string
}.

Section AuthService.

Context `{!Hasher} `{!JwtCodec}.

Variable cfg : Config.

(** [bcrypt.hashSync(data, rounds)] draws a fresh salt. *)
Definition hashSync (data : string) (rounds : nat) : M string := λ w,
  (Ok (hashWith rounds (entropy w) data), set_entropy (S (entropy w)) w).

(** [bcrypt.compareSync(data, encrypted)] throws when the hash is
    [undefined]. *)
Definition bcrypt_compareSync (data : string) (encrypted : option string)
  : M bool :=
  match encrypted with
  | None => throw (JsError "data and hash arguments required")
  | Some h => mret (compareSync data h)
  end.

(** The claims [jwtService.sign] puts in a token at time [now]: the
    payload, the issued-at stamp and, when the module has [expiresIn],
    the expiry. *)
Definition claims_at (payload : JwtPayload.t) (now : nat) : Claims.t :=
  Claims.mk payload None now ((λ ttl, now + ttl) <$> expiresIn cfg).

(** [jwtService.sign(payload)] *)
Definition jwt_sign (payload : JwtPayload.t) : M string := λ w,
  (Ok (jwt_encode (moduleSecret cfg) (claims_at payload (clock w))), w).

(** What [jwtService.verify] decides at time [now]: signature, then
    expiry. *)
Definition verify_at (now : nat) (token secret : string) : Result Claims.t :=
  match jwt_decode secret token with
  | None => Throw (JsError "invalid token")
  | Some c =>
      match Claims.exp c with
      | Some e => if decide (e ≤ now) then Throw (JsError "jwt expired") else Ok c
      | None => Ok c
      end
  end.

(** [jwtService.verify(token, { secret })] *)
Definition jwt_verify (token : string) (secret : string) : M Claims.t := λ w,
  (verify_at (clock w) token secret, w).

(** The [catch] block shared by the methods that have one. *)
Definition rethrow {A} (error : Exn) : M A :=
  logger_error error ≫= λ _,
  throw (RpcException 400 (message error)).

Definition signJWT (payload : JwtPayload.t) : M string :=
  jwt_sign payload.

(** The token that [signJWT] issues at time [now] for the stored
    document [u] (its id, email and username). *)
Definition token_for (u : Doc) (now : nat) : string :=
  jwt_encode (moduleSecret cfg)
    (claims_at (JwtPayload.mk (String_ (u !! "_id")) (u !! "email")
                  (u !! "username"))
       now).

Definition registerUser (registerUserDto : RegisterUserDto.t)
  : M RegisterUserResponse.t :=
  tryCatch
    (let email := RegisterUserDto.email registerUserDto in
     let password := RegisterUserDto.password registerUserDto in
     user ← findOne "email" (Some email);
     match user with
     | Some _ => throw AlreadyExists
     | None =>
         hash ← hashSync password 10;
         newUser ← create (<["password" := hash]>
                             (RegisterUserDto.to_object registerUserDto));
         token ← signJWT (JwtPayload.mk (String_ (newUser !! "_id"))
                                        (newUser !! "email")
                                        (newUser !! "username"));
         mret (RegisterUserResponse.mk newUser token
                 "The user was created successfully")
     end)
    rethrow.

Definition loginUser (loginUserDto : LoginUserDto.t)
  : M LoginUserResponse.t :=
  tryCatch
    (let email := LoginUserDto.email loginUserDto in
     let password := LoginUserDto.password loginUserDto in
     user ← findOne "email" (Some email);
     match user with
     | None => throw InvalidCredentials
     | Some user =>
         isPasswordValid ← bcrypt_compareSync password (user !! "password");
         if negb isPasswordValid
         then throw InvalidCredentials
         else
           token ← signJWT (JwtPayload.mk (String_ (user !! "_id"))
                                          (user !! "email")
                                          (user !! "username"));
           mret (LoginUserResponse.mk user token
                   "The user logged in correctly")
     end)
    rethrow.

Definition verifyUser (token : string) : M VerifyUserResponse.t :=
  tryCatch
    (decoded ← jwt_verify token (envs_jwtSecret cfg);
     let data := Claims.payload decoded in
     token' ← signJWT data;
     mret (VerifyUserResponse.mk data token' "Successfully verified user"))
    rethrow.

Definition changePassword (changePasswordDto : ChangePasswordDto.t)
  : M ChangePasswordResponse.t :=
  tryCatch
    (let token := ChangePasswordDto.token changePasswordDto in
     let password := ChangePasswordDto.password changePasswordDto in
     let newPassword := ChangePasswordDto.newPassword changePasswordDto in
     decoded ← jwt_verify token (moduleSecret cfg);
     user ← findOne "username" (JwtPayload.username (Claims.payload decoded));
     match user with
     | None => throw UserNotValid
     | Some user =>
         isPasswordValid ← bcrypt_compareSync password (user !! "password");
         if negb isPasswordValid
         then throw PasswordNotValid
         else
           hash ← hashSync newPassword 10;
           updatePassword ← findOneAndUpdate (user !! "_id")
                                             {["password" := hash]};
           mret (ChangePasswordResponse.mk updatePassword
                   "Password changed successfully")
     end)
    rethrow.

Definition updateUser (updateUserDto : UpdateUserDto.t)
  : M UpdateUserResponse.t :=
  let id_ := UpdateUserDto.id updateUserDto in
  user ← findOneAndUpdate (Some id_) (UpdateUserDto.to_object updateUserDto);
  match user with
  | None => throw NotUpdated
  | Some _ =>
      mret (UpdateUserResponse.mk (UpdateUserDto.to_object updateUserDto)
              "User information updated correctly")
  end.

End AuthService.

(** * What the properties are stated with *)

Section Specification.

Context `{!Hasher}.

(** A failure of a guarded method is an [RpcException] with status 400
    and it is the last thing logged. *)
Definition surfaced {A} (out : Result A * World) : Prop :=
  ∀ e, fst out = Throw e →
       ∃ m, e = RpcException 400 m ∧
            ∃ e0, message e0 = m ∧ last (logged (snd out)) = Some e0.

(** A string that the hasher can have produced. *)
Definition hashed (s : string) : Prop :=
  ∃ rounds e data, s = hashWith rounds e data.

(** The invariant of the data model: every stored password is a hash. *)
Definition passwords_hashed (ds : list Doc) : Prop :=
  ∀ d s, d ∈ ds → d !! "password" = Some s → hashed s.

(** [preserves I m Q]: running [m] keeps the invariant [I] of the world,
    whether it returns or throws, and a value it returns satisfies [Q]. *)
Definition preserves {A} (I : World → Prop) (m : M A) (Q : A → Prop) : Prop :=
  ∀ w, I w → I (snd (m w)) ∧ ∀ a, fst (m w) = Ok a → Q a.

(** An invariant that only looks at the collection. *)
Definition about_docs (I : World → Prop) : Prop :=
  ∀ w w', docs w' = docs w → I w → I w'.

(** The outcome [out] of a call made in world [w] has logged nothing if
    the call returned, and exactly the caught error, surfaced with status
    400 and its message, if the call threw. *)
Definition logs_failures_only {A} (w : World) (out : Result A * World) : Prop :=
  (∀ a, fst out = Ok a → logged (snd out) = logged w) ∧
  (∀ e, fst out = Throw e →
        ∃ e0, e = RpcException 400 (message e0) ∧
              logged (snd out) = logged w ++ [e0]).

End Specification.

(** ** Histories of the service *)

(** What can happen to a deployed service: a call of one of its five
    methods, time passing, the store becoming unreachable or reachable
    again. *)
Inductive Event : Type :=
  | Register (dto : RegisterUserDto.t)
  | Login (dto : LoginUserDto.t)
  | Verify (token : string)
  | ChangePassword (dto : ChangePasswordDto.t)
  | Update (dto : UpdateUserDto.t)
  | Wait (dt : nat)
  | Outage (o : option string).

Section Histories.

Context `{!Hasher} `{!JwtCodec}.
Variable cfg : Config.

(** The world after an event; the response goes to the caller. *)
Definition after (ev : Event) (w : World) : World :=
  match ev with
  | Register dto => snd (registerUser cfg dto w)
  | Login dto => snd (loginUser cfg dto w)
  | Verify token => snd (verifyUser cfg token w)
  | ChangePassword dto => snd (changePassword cfg dto w)
  | Update dto => snd (updateUser dto w)
  | Wait dt => elapse dt w
  | Outage o => mkWorld (docs w) o (logged w) (clock w) (entropy w)
  end.

Definition after_all (evs : list Event) (w : World) : World :=
  foldl (λ w ev, after ev w) w evs.

(** An update that does not touch the password. *)
Definition leaves_password (ev : Event) : Prop :=
  match ev with
  | Update dto => UpdateUserDto.fields dto !! "password" = None
  | _ => True
  end.

(** An event during which no time passes: a call or a change of the
    store's reachability. *)
Definition timeless (ev : Event) : Prop :=
  match ev with
  | Wait _ => False
  | _ => True
  end.

End Histories.

(** * In-memory fakes of the hasher and of the token codec

    Instances of the two interfaces that compute, used to run the service
    on concrete requests. *)

Module Fakes.

(** A salted "hash": a recognisable prefix, one salt character, and the
    data. *)
Definition fake_hashWith (rounds e : nat) (data : string) : string :=
  "$2b$" +:+ String (ascii_of_nat e) data.

Definition fake_compareSync (data encrypted : string) : bool :=
  match encrypted with
  | String "$"%char (String "2"%char (String "b"%char (String "$"%char (String _ rest)))) =>
      bool_decide (rest = data)
  | _ => false
  end.

Global Instance hasher : Hasher.
Proof.
  refine (Build_Hasher fake_hashWith fake_compareSync _).
  intros rounds e data. simpl. by apply bool_decide_eq_true.
Defined.

Global Instance payload_eq_dec : EqDecision JwtPayload.t.
Proof. solve_decision. Defined.
Global Instance claims_eq_dec : EqDecision Claims.t.
Proof. solve_decision. Defined.

Definition claims_to_tuple (c : Claims.t)
  : string * option string * option string * option string * nat * option nat :=
  (JwtPayload.id (Claims.payload c), JwtPayload.email (Claims.payload c),
   JwtPayload.username (Claims.payload c), Claims.sub c, Claims.iat c,
   Claims.exp c).

Definition claims_of_tuple
    (x : string * option string * option string * option string * nat * option nat)
  : Claims.t :=
  let '(i, e, u, s, t, x) := x in
  Claims.mk (JwtPayload.mk i e u) s t x.

Global Instance claims_countable : Countable Claims.t.
Proof.
  apply (inj_countable' claims_to_tuple claims_of_tuple).
  by intros [[] ? ? ?].
Defined.

(** Bit strings for positive numbers. *)
Fixpoint bits_of_pos (p : positive) : string :=
  match p with
  | xH => ""
  | xO q => String "0" (bits_of_pos q)
  | xI q => String "1" (bits_of_pos q)
  end.

Fixpoint pos_of_bits (s : string) : positive :=
  match s with
  | EmptyString => xH
  | String c r =>
      if bool_decide (c = "0"%char) then xO (pos_of_bits r)
      else xI (pos_of_bits r)
  end.

Definition fake_encode (key : string) (c : Claims.t) : string :=
  bits_of_pos (encode (key, c)).

Definition fake_decode (key token : string) : option Claims.t :=
  match decode (pos_of_bits token) with
  | Some (key', c) => if decide (key' = key) then Some c else None
  | None => None
  end.

Global Instance codec : JwtCodec.
Proof.
  refine (Build_JwtCodec fake_encode fake_decode _).
  intros key c. unfold fake_decode, fake_encode.
  assert (∀ p, pos_of_bits (bits_of_pos p) = p) as Hbits.
  { induction p as [q IH|q IH|]; simpl; by rewrite ?IH. }
  rewrite Hbits, decode_encode. by rewrite decide_True.
Defined.

(** A deployment: one secret for signing and for [envs], tokens that
    live for an hour. *)
Definition secret : string := "s3cr3t".
Definition ttl : nat := 3600.

Definition cfg : Config := mkConfig secret (Some ttl) secret.

Definition register := registerUser cfg.
Definition login := loginUser cfg.
Definition verify := verifyUser cfg.
Definition change := changePassword cfg.
Definition update := updateUser.

(** An empty collection, a reachable store, nothing logged. *)
Definition world0 : World := mkWorld [] None [] 1000 65.

Definition alice : RegisterUserDto.t :=
  RegisterUserDto.mk "a@x.com" "Secret123!" {["username" := "alice"]}.

(** The world after Alice has registered. *)
Definition world1 : World := snd (register alice world0).

(** Alice's document once stored (the first salt drawn is ["A"]). *)
Definition alice_doc : Doc :=
  {[ "_id" := "0"; "username" := "alice"; "email" := "a@x.com";
     "password" := "$2b$ASecret123!" ]}.

(** The token Alice got when she registered, at time 1000. *)
Definition alice_token : string := token_for cfg alice_doc 1000.

Definition alice_registered : RegisterUserResponse.t :=
  RegisterUserResponse.mk alice_doc alice_token
    "The user was created successfully".

Definition alice_login : LoginUserDto.t :=
  LoginUserDto.mk "a@x.com" "Secret123!".

(** The store cannot be reached. *)
Definition world_down : World :=
  mkWorld (docs world1) (Some "connect ECONNREFUSED") [] 1000 66.

(** Alice changes her password, with the token from her registration. *)
Definition alice_change : ChangePasswordDto.t :=
  ChangePasswordDto.mk alice_token "Secret123!" "N3w-Secret!" "N3w-Secret!".

(** The same request with the new password equal to the old one. *)
Definition alice_rechange : ChangePasswordDto.t :=
  ChangePasswordDto.mk alice_token "Secret123!" "Secret123!" "Secret123!".

Definition alice_claims : Claims.t :=
  Claims.mk (JwtPayload.mk "0" (Some "a@x.com") (Some "alice")) None 1000
    (Some 4600).

(** A token for a username that nobody has. *)
Definition bob_token : string :=
  jwt_encode secret
    (Claims.mk (JwtPayload.mk "9" (Some "b@x.com") (Some "bob")) None 1000
       (Some 4600)).

(** A profile update for Alice that carries a password. *)
Definition alice_update : UpdateUserDto.t :=
  UpdateUserDto.mk "0" {[ "password" := "N3w-Secret!" ]}.

(** A profile update for an id that nobody has. *)
Definition nobody_update : UpdateUserDto.t :=
  UpdateUserDto.mk "7" {[ "username" := "carol" ]}.

(** Bob, who registers after Alice. *)
Definition bob : RegisterUserDto.t :=
  RegisterUserDto.mk "b@x.com" "B0b-Secret!" {["username" := "bob"]}.

(** A token that names Alice by username only: another id, another
    email. *)
Definition namesake_token : string :=
  jwt_encode secret
    (Claims.mk (JwtPayload.mk "9" (Some "b@x.com") (Some "alice")) None 1000
       (Some 4600)).

(** Alice moves to another email address. *)
Definition alice_move : UpdateUserDto.t :=
  UpdateUserDto.mk "0" {[ "email" := "alice@y.org" ]}.

(** Alice takes another username. *)
Definition alice_rename : UpdateUserDto.t :=
  UpdateUserDto.mk "0" {[ "username" := "alicia" ]}.

(** The world after Bob has registered too. *)
Definition world2 : World := snd (register bob world1).

(** Bob's document once stored (the second salt drawn is ["B"]). *)
Definition bob_doc : Doc :=
  {[ "_id" := "1"; "username" := "bob"; "email" := "b@x.com";
     "password" := "$2b$BB0b-Secret!" ]}.

(** A profile update in which Bob asks for Alice's email address. *)
Definition bob_takes_alice_email : UpdateUserDto.t :=
  UpdateUserDto.mk "1" {[ "email" := "a@x.com" ]}.

(** A history: Alice registers, logs in, changes her password, and the
    store goes down. *)
Definition alice_history : list Event :=
  [Register alice; Login alice_login; ChangePassword alice_change;
   Outage (Some "connect ECONNREFUSED")].

End Fakes.

(** * Properties *)

(** Unfolding the monad to its state-passing meaning. *)
Ltac run :=
  unfold mbind, mret, M_bind, M_ret, bind, ret, throw, tryCatch in *.

Section StoreFacts.

Lemma find_by_Some field v ds i d :
  find_by field v ds = Some (i, d) →
  ds !! i = Some d ∧ d !! field = v ∧
  ∀ j e, ds !! j = Some e → (j < i)%nat → e !! field ≠ v.
Proof. unfold find_by. intros Hf. by apply list_find_Some in Hf. Qed.

Lemma find_by_None field v ds :
  find_by field v ds = None ↔ ∀ d, d ∈ ds → d !! field ≠ v.
Proof.
  unfold find_by. rewrite list_find_None, Forall_forall.
  split; intros Hn d Hd; exact (Hn d Hd).
Qed.

Lemma find_by_elem_of field v ds d :
  d ∈ ds → d !! field = v → is_Some (find_by field v ds).
Proof.
  intros Hd Hv. unfold find_by.
  exact (list_find_elem_of (λ d : Doc, d !! field = v) ds d Hd Hv).
Qed.

(** With a unique key, the first match is the only match. *)
Lemma find_by_unique field v ds i d :
  NoDup ((λ d : Doc, d !! field) <$> ds) →
  ds !! i = Some d → d !! field = v →
  find_by field v ds = Some (i, d).
Proof.
  intros Hnd Hi Hv. apply list_find_Some. split_and!; [done..|].
  intros j e Hj Hlt He.
  assert (i = j) as ->; [|lia].
  eapply NoDup_lookup; [exact Hnd | |]; rewrite list_lookup_fmap.
  - by rewrite Hi.
  - rewrite Hj. simpl. by rewrite He, Hv.
Qed.

Lemma findOne_up field v w :
  outage w = None →
  findOne field v w = (Ok (snd <$> find_by field v (docs w)), w).
Proof. unfold findOne. by intros ->. Qed.

End StoreFacts.

Section Properties.

Context `{!Hasher} `{!JwtCodec}.
Variable cfg : Config.

(** C2: when a user with the given email is stored, [registerUser]
    fails with the already-exists error (status 400, "User already
    exists") and writes nothing to the store: the collection, and with
    it the existing user's record, is unchanged; the only effect is the
    logged error. *)
Theorem registerUser_existing_email
    (dto : RegisterUserDto.t) (w : World) (u : Doc) :
  outage w = None →
  u ∈ docs w →
  u !! "email" = Some (RegisterUserDto.email dto) →
  ∃ w', registerUser cfg dto w = (Throw AlreadyExists, w') ∧
        docs w' = docs w ∧
        w' = set_logged (logged w ++ [AlreadyExists]) w.
Proof.
  intros Hup Hu He.
  destruct (find_by_elem_of "email" _ _ u Hu He) as [[i d] Hf].
  eexists. split; [|split; [|reflexivity]]; [|reflexivity].
  unfold registerUser. run. rewrite (findOne_up _ _ _ Hup), Hf. reflexivity.
Qed.

(** *** Runs of [loginUser] *)

Lemma loginUser_no_user (dto : LoginUserDto.t) (w : World) :
  outage w = None →
  find_by "email" (Some (LoginUserDto.email dto)) (docs w) = None →
  loginUser cfg dto w
  = (Throw InvalidCredentials, set_logged (logged w ++ [InvalidCredentials]) w).
Proof.
  intros Hup Hf. unfold loginUser. run.
  rewrite (findOne_up _ _ _ Hup), Hf. reflexivity.
Qed.

Lemma loginUser_wrong_password (dto : LoginUserDto.t) (w : World) i u h :
  outage w = None →
  find_by "email" (Some (LoginUserDto.email dto)) (docs w) = Some (i, u) →
  u !! "password" = Some h →
  compareSync (LoginUserDto.password dto) h = false →
  loginUser cfg dto w
  = (Throw InvalidCredentials, set_logged (logged w ++ [InvalidCredentials]) w).
Proof.
  intros Hup Hf Hh Hc. unfold loginUser, bcrypt_compareSync. run.
  rewrite (findOne_up _ _ _ Hup), Hf. simpl. rewrite Hh. run.
  rewrite Hc. reflexivity.
Qed.

Lemma loginUser_right_password (dto : LoginUserDto.t) (w : World) i u h :
  outage w = None →
  find_by "email" (Some (LoginUserDto.email dto)) (docs w) = Some (i, u) →
  u !! "password" = Some h →
  compareSync (LoginUserDto.password dto) h = true →
  loginUser cfg dto w
  = (Ok (LoginUserResponse.mk u (token_for cfg u (clock w))
           "The user logged in correctly"),
     w).
Proof.
  intros Hup Hf Hh Hc. unfold loginUser, bcrypt_compareSync. run.
  rewrite (findOne_up _ _ _ Hup), Hf. simpl. rewrite Hh. run.
  rewrite Hc. reflexivity.
Qed.

(** C3: the error of [loginUser] when no user has the email and its
    error when a user has it but the password does not match the
    stored hash are the same value (same exception class, status 400,
    message "User/Password not valid"); the same entry is logged and the
    store is untouched in both cases. *)
Theorem loginUser_failures_indistinguishable
    (dto1 dto2 : LoginUserDto.t) (w1 w2 : World) i u h :
  outage w1 = None → outage w2 = None →
  find_by "email" (Some (LoginUserDto.email dto1)) (docs w1) = None →
  find_by "email" (Some (LoginUserDto.email dto2)) (docs w2) = Some (i, u) →
  u !! "password" = Some h →
  compareSync (LoginUserDto.password dto2) h = false →
  fst (loginUser cfg dto1 w1) = Throw InvalidCredentials ∧
  fst (loginUser cfg dto2 w2) = fst (loginUser cfg dto1 w1) ∧
  logged (snd (loginUser cfg dto1 w1)) = logged w1 ++ [InvalidCredentials] ∧
  logged (snd (loginUser cfg dto2 w2)) = logged w2 ++ [InvalidCredentials] ∧
  docs (snd (loginUser cfg dto1 w1)) = docs w1 ∧
  docs (snd (loginUser cfg dto2 w2)) = docs w2.
Proof.
  intros Hup1 Hup2 Hnone Hsome Hh Hc.
  rewrite (loginUser_no_user dto1 w1 Hup1 Hnone).
  rewrite (loginUser_wrong_password dto2 w2 i u h Hup2 Hsome Hh Hc).
  by split_and!.
Qed.

(** *** Runs of the store operations *)

Lemma create_Ok_inv (obj doc : Doc) (w w' : World) :
  create obj w = (Ok doc, w') →
  outage w = None ∧
  w' = set_docs (docs w ++ [doc]) w ∧
  (doc !! "_id" ∉ ids_of (docs w)) ∧
  (doc !! "email" ∉ emails_of (docs w)) ∧
  is_Some (doc !! "_id") ∧
  ∀ k, k ≠ "_id" → doc !! k = obj !! k.
Proof.
  unfold create. destruct (outage w) as [m|]; [done|].
  set (doc0 := match obj !! "_id" with Some _ => obj | None => _ end).
  repeat case_decide; try done.
  intros [= <- <-]. split_and!; try done.
  - subst doc0. destruct (obj !! "_id") eqn:E; [by rewrite E|].
    by rewrite lookup_insert_eq.
  - intros k Hk. subst doc0. destruct (obj !! "_id") eqn:E; [done|].
    by rewrite lookup_insert_ne.
Qed.

Lemma findOneAndUpdate_accepted id_ upd w i d :
  outage w = None →
  find_by "_id" id_ (docs w) = Some (i, d) →
  update_accepted (docs w) i d (upd ∪ d) →
  findOneAndUpdate id_ upd w
  = (Ok (Some d), set_docs (<[i := upd ∪ d]> (docs w)) w).
Proof.
  intros Hup Hf Hacc. unfold findOneAndUpdate. rewrite Hup, Hf.
  by rewrite decide_True.
Qed.

Lemma findOneAndUpdate_absent id_ upd w :
  outage w = None →
  find_by "_id" id_ (docs w) = None →
  findOneAndUpdate id_ upd w = (Ok None, w).
Proof. intros Hup Hf. unfold findOneAndUpdate. by rewrite Hup, Hf. Qed.

Lemma findOneAndUpdate_down id_ upd w m :
  outage w = Some m →
  findOneAndUpdate id_ upd w = (Throw (JsError m), w).
Proof. intros Hdown. unfold findOneAndUpdate. by rewrite Hdown. Qed.

(** *** Runs of [registerUser] *)

Lemma registerUser_Ok_inv (dto : RegisterUserDto.t) (w w' : World)
    (r : RegisterUserResponse.t) :
  registerUser cfg dto w = (Ok r, w') →
  let h := hashWith 10 (entropy w) (RegisterUserDto.password dto) in
  let doc := RegisterUserResponse.data r in
  outage w = None ∧
  find_by "email" (Some (RegisterUserDto.email dto)) (docs w) = None ∧
  create (<["password" := h]> (RegisterUserDto.to_object dto))
         (set_entropy (S (entropy w)) w) = (Ok doc, w') ∧
  r = RegisterUserResponse.mk doc (token_for cfg doc (clock w))
        "The user was created successfully".
Proof.
  unfold registerUser, hashSync, signJWT, jwt_sign, rethrow, logger_error.
  run. unfold findOne.
  destruct (outage w) as [m|] eqn:Hup; [done|].
  destruct (find_by "email" _ (docs w)) as [[i u]|] eqn:Hf; [done|]. simpl.
  destruct (create _ _) as [[doc|e] w1] eqn:Hc; [|done].
  intros [= <- <-]. simpl. split_and!; try done.
  apply create_Ok_inv in Hc as (_ & -> & _). done.
Qed.

(** C10: the user object in the response of a successful [registerUser]
    or [loginUser] still has its [password] field: it is the persisted
    document as stored, with the hash of the submitted password. *)
Theorem responses_carry_password_hash :
  (∀ (dto : RegisterUserDto.t) (w w' : World) (r : RegisterUserResponse.t),
     registerUser cfg dto w = (Ok r, w') →
     RegisterUserResponse.data r !! "password"
     = Some (hashWith 10 (entropy w) (RegisterUserDto.password dto)) ∧
     RegisterUserResponse.data r ∈ docs w') ∧
  (∀ (dto : LoginUserDto.t) (w w' : World) (r : LoginUserResponse.t),
     loginUser cfg dto w = (Ok r, w') →
     ∃ h, LoginUserResponse.user r !! "password" = Some h ∧
          compareSync (LoginUserDto.password dto) h = true ∧
          LoginUserResponse.user r ∈ docs w').
Proof.
  split.
  - intros dto w w' r Hr.
    apply registerUser_Ok_inv in Hr as (_ & _ & Hc & _).
    apply create_Ok_inv in Hc as (_ & -> & _ & _ & _ & Hk). split.
    + rewrite Hk by done. by rewrite lookup_insert_eq.
    + simpl. apply elem_of_app. right. by apply list_elem_of_singleton.
  - intros dto w w' r.
    unfold loginUser, bcrypt_compareSync, signJWT, jwt_sign, rethrow, logger_error.
    run. unfold findOne.
    destruct (outage w) as [m|]; [done|].
    destruct (find_by "email" _ (docs w)) as [[i u]|] eqn:Hf; [|done]. simpl.
    destruct (u !! "password") as [h|] eqn:Hh; [|done]. run.
    destruct (compareSync _ h) eqn:Hc; [|done]. simpl.
    intros [= <- <-]. exists h. simpl. split_and!; try done.
    apply find_by_Some in Hf as (Hi & _). by eapply list_elem_of_lookup_2.
Qed.

(** *** [updateUser] *)

Lemma updateUser_existing (dto : UpdateUserDto.t) (w : World) i d :
  outage w = None →
  find_by "_id" (Some (UpdateUserDto.id dto)) (docs w) = Some (i, d) →
  update_accepted (docs w) i d (UpdateUserDto.to_object dto ∪ d) →
  updateUser dto w
  = (Ok (UpdateUserResponse.mk (UpdateUserDto.to_object dto)
           "User information updated correctly"),
     set_docs (<[i := UpdateUserDto.to_object dto ∪ d]> (docs w)) w).
Proof.
  intros Hup Hf Hacc. unfold updateUser. run.
  by rewrite (findOneAndUpdate_accepted _ _ _ _ _ Hup Hf Hacc).
Qed.

Lemma updateUser_absent (dto : UpdateUserDto.t) (w : World) :
  outage w = None →
  find_by "_id" (Some (UpdateUserDto.id dto)) (docs w) = None →
  updateUser dto w = (Throw NotUpdated, w).
Proof.
  intros Hup Hf. unfold updateUser. run.
  by rewrite (findOneAndUpdate_absent _ _ _ Hup Hf).
Qed.

Lemma updateUser_down (dto : UpdateUserDto.t) (w : World) m :
  outage w = Some m → updateUser dto w = (Throw (JsError m), w).
Proof.
  intros Hdown. unfold updateUser. run.
  by rewrite (findOneAndUpdate_down _ _ _ _ Hdown).
Qed.

(** C9 (amended): for an id that a stored user has, when the store
    accepts the write (the update leaves [_id] as it is and gives the
    user no email that another user holds), [updateUser] merges the
    submitted fields into that user's document and answers with the
    request object itself, not with the merged document (the two differ
    as soon as the request carries no [_id]); when the store refuses the
    write, [updateUser] fails and leaves the world as it was. For an id
    that no stored user has, it fails with the not-found error and leaves
    the world, hence the store, as it was. The store is assumed
    reachable. *)
Theorem updateUser_returns_submitted_fields
    (dto : UpdateUserDto.t) (w : World) :
  outage w = None →
  (∀ i d,
     find_by "_id" (Some (UpdateUserDto.id dto)) (docs w) = Some (i, d) →
     update_accepted (docs w) i d (UpdateUserDto.to_object dto ∪ d) →
     ∃ r w',
       updateUser dto w = (Ok r, w') ∧
       UpdateUserResponse.data r = UpdateUserDto.to_object dto ∧
       docs w' = <[i := UpdateUserDto.to_object dto ∪ d]> (docs w) ∧
       (UpdateUserDto.fields dto !! "_id" = None →
        docs w' !! i ≠ Some (UpdateUserResponse.data r))) ∧
  (find_by "_id" (Some (UpdateUserDto.id dto)) (docs w) = None →
   updateUser dto w = (Throw NotUpdated, w)) ∧
  (∀ i d,
     find_by "_id" (Some (UpdateUserDto.id dto)) (docs w) = Some (i, d) →
     ¬ update_accepted (docs w) i d (UpdateUserDto.to_object dto ∪ d) →
     ∃ e, updateUser dto w = (Throw e, w)).
Proof.
  intros Hup. split_and!.
  - intros i d Hf Hacc. eexists _, _. split; [by apply updateUser_existing|].
    simpl. split_and!; try done.
    intros Hno. apply find_by_Some in Hf as (Hi & Hid & _).
    rewrite list_lookup_insert_eq by (by eapply lookup_lt_Some).
    intros [= Heq].
    assert ((UpdateUserDto.to_object dto ∪ d) !! "_id" = Some (UpdateUserDto.id dto))
      as Hm.
    { apply lookup_union_Some_raw. right. split; [|done].
      unfold UpdateUserDto.to_object. by rewrite lookup_insert_ne. }
    rewrite Heq in Hm. unfold UpdateUserDto.to_object in Hm.
    rewrite lookup_insert_ne in Hm by done. congruence.
  - by apply updateUser_absent.
  - intros i d Hf Hrefused. unfold updateUser, findOneAndUpdate. run.
    rewrite Hup, Hf. rewrite decide_False by done.
    case_decide; by eexists.
Qed.

(** *** The catch-all of the four guarded methods *)

Lemma tryCatch_rethrow_Throw {A} (body : M A) (w w' : World) (e : Exn) :
  tryCatch body rethrow w = (Throw e, w') →
  ∃ e0 w0, body w = (Throw e0, w0) ∧
           e = RpcException 400 (message e0) ∧
           w' = set_logged (logged w0 ++ [e0]) w0.
Proof.
  unfold tryCatch, rethrow, logger_error. run.
  destruct (body w) as [[a|e0] w0]; [done|].
  intros [= <- <-]. by exists e0, w0.
Qed.

Lemma tryCatch_rethrow_surfaced {A} (body : M A) (w : World) :
  surfaced (tryCatch body rethrow w).
Proof.
  intros e He.
  destruct (tryCatch body rethrow w) as [res w'] eqn:Hrun. simpl in He. subst res.
  apply tryCatch_rethrow_Throw in Hrun as (e0 & w0 & _ & -> & ->).
  exists (message e0). split; [done|]. exists e0. split; [done|].
  simpl. by rewrite last_snoc.
Qed.

Lemma registerUser_surfaced dto w : surfaced (registerUser cfg dto w).
Proof. apply tryCatch_rethrow_surfaced. Qed.

Lemma loginUser_surfaced dto w : surfaced (loginUser cfg dto w).
Proof. apply tryCatch_rethrow_surfaced. Qed.

Lemma verifyUser_surfaced token w : surfaced (verifyUser cfg token w).
Proof. apply tryCatch_rethrow_surfaced. Qed.

Lemma changePassword_surfaced dto w : surfaced (changePassword cfg dto w).
Proof. apply tryCatch_rethrow_surfaced. Qed.

(** C8 (what the code does): [updateUser] has no catch block. Its
    not-found error leaves the world untouched, so nothing is logged;
    and when the store call itself rejects, the driver's error reaches
    the caller as it is: not an [RpcException], no status 400, and not
    logged either. *)
Theorem updateUser_errors_bypass_catch (dto : UpdateUserDto.t) (w : World) :
  (outage w = None →
   find_by "_id" (Some (UpdateUserDto.id dto)) (docs w) = None →
   updateUser dto w = (Throw NotUpdated, w) ∧
   logged (snd (updateUser dto w)) = logged w) ∧
  (∀ m, outage w = Some m →
        updateUser dto w = (Throw (JsError m), w) ∧
        ¬ surfaced (updateUser dto w)).
Proof.
  split.
  - intros Hup Hf. by rewrite (updateUser_absent dto w Hup Hf).
  - intros m Hdown. rewrite (updateUser_down dto w m Hdown). split; [done|].
    intros Hs. destruct (Hs (JsError m) eq_refl) as (m' & Hm' & _). done.
Qed.

(** *** Stored passwords *)

(** C7 (what the code does): [updateUser] hands the request object to
    the store as the update. A [password] field in it is written to the
    user's document exactly as submitted: no hashing happens on this
    path. *)
Theorem updateUser_persists_submitted_password
    (dto : UpdateUserDto.t) (w : World) i d (p : string) :
  outage w = None →
  find_by "_id" (Some (UpdateUserDto.id dto)) (docs w) = Some (i, d) →
  update_accepted (docs w) i d (UpdateUserDto.to_object dto ∪ d) →
  UpdateUserDto.fields dto !! "password" = Some p →
  ∃ r w' d',
    updateUser dto w = (Ok r, w') ∧
    docs w' !! i = Some d' ∧
    d' !! "_id" = Some (UpdateUserDto.id dto) ∧
    d' !! "password" = Some p.
Proof.
  intros Hup Hf Hacc Hp.
  eexists _, _, _. split; [by apply updateUser_existing|]. simpl.
  pose proof Hf as (Hi & Hid & _)%find_by_Some.
  split_and!.
  - apply list_lookup_insert_eq. by eapply lookup_lt_Some.
  - destruct Hacc as [-> _]. done.
  - apply lookup_union_Some_raw. left.
    unfold UpdateUserDto.to_object. by rewrite lookup_insert_ne.
Qed.

(** *** Tokens *)

Lemma signJWT_run payload w :
  signJWT cfg payload w
  = (Ok (jwt_encode (moduleSecret cfg) (claims_at cfg payload (clock w))), w).
Proof. reflexivity. Qed.

(** A token signed at [now] verifies [dt] seconds later, as long as
    [dt] is within its lifetime. *)
Lemma verify_at_signed payload now dt :
  (∀ ttl, expiresIn cfg = Some ttl → dt < ttl) →
  verify_at (now + dt)
    (jwt_encode (moduleSecret cfg) (claims_at cfg payload now)) (moduleSecret cfg)
  = Ok (claims_at cfg payload now).
Proof.
  intros Hlive. unfold verify_at. rewrite jwt_decode_encode.
  unfold claims_at. simpl.
  destruct (expiresIn cfg) as [ttl|]; simpl; [|done].
  specialize (Hlive ttl eq_refl). rewrite decide_False by lia. done.
Qed.

Lemma verifyUser_accepts token c w :
  verify_at (clock w) token (envs_jwtSecret cfg) = Ok c →
  verifyUser cfg token w
  = (Ok (VerifyUserResponse.mk (Claims.payload c)
           (jwt_encode (moduleSecret cfg) (claims_at cfg (Claims.payload c) (clock w)))
           "Successfully verified user"),
     w).
Proof.
  intros Hv. unfold verifyUser, jwt_verify. run. rewrite Hv. reflexivity.
Qed.

(** C4: a token signed by [signJWT] for a payload (id, email, username)
    is accepted by [verifyUser] for as long as it has not expired; the
    decoded content is the payload plus the standard claims (no subject,
    issued-at, expiry), the user object returned is the payload without
    these claims, and the token returned is what [signJWT] issues for
    that same payload at the time of the verification. The JwtModule is
    assumed to be registered with [envs.jwtSecret]. *)
Theorem verifyUser_signJWT_roundtrip
    (payload : JwtPayload.t) (w : World) (dt : nat) :
  moduleSecret cfg = envs_jwtSecret cfg →
  (∀ ttl, expiresIn cfg = Some ttl → dt < ttl) →
  ∃ t t' r,
    signJWT cfg payload w = (Ok t, w) ∧
    jwt_decode (envs_jwtSecret cfg) t
    = Some (Claims.mk payload None (clock w)
              ((λ ttl, clock w + ttl) <$> expiresIn cfg)) ∧
    verifyUser cfg t (elapse dt w) = (Ok r, elapse dt w) ∧
    r = VerifyUserResponse.mk payload t' "Successfully verified user" ∧
    JwtPayload.id (VerifyUserResponse.user r) = JwtPayload.id payload ∧
    JwtPayload.email (VerifyUserResponse.user r) = JwtPayload.email payload ∧
    JwtPayload.username (VerifyUserResponse.user r) = JwtPayload.username payload ∧
    signJWT cfg payload (elapse dt w) = (Ok t', elapse dt w).
Proof.
  intros Hsecret Hlive.
  eexists _, _, _. split; [apply signJWT_run|].
  split; [rewrite <- Hsecret; apply jwt_decode_encode|].
  split.
  - apply verifyUser_accepts. rewrite <- Hsecret. simpl.
    by apply verify_at_signed.
  - by split_and!.
Qed.

(** *** Register, then log in *)

(** After a successful [registerUser], the new document is the one that
    a lookup by the registered email finds. *)
Lemma registerUser_then_find (dto : RegisterUserDto.t) (w w1 : World)
    (r : RegisterUserResponse.t) :
  registerUser cfg dto w = (Ok r, w1) →
  let u := RegisterUserResponse.data r in
  outage w1 = None ∧
  find_by "email" (Some (RegisterUserDto.email dto)) (docs w1)
  = Some (length (docs w), u) ∧
  u !! "email" = Some (RegisterUserDto.email dto) ∧
  u !! "password"
  = Some (hashWith 10 (entropy w) (RegisterUserDto.password dto)) ∧
  u !! "username" = RegisterUserDto.profile dto !! "username".
Proof.
  intros Hr u. apply registerUser_Ok_inv in Hr as (Hup & Hf & Hc & _).
  fold u in Hc. apply create_Ok_inv in Hc as (_ & -> & _ & _ & _ & Hk).
  assert (u !! "email" = Some (RegisterUserDto.email dto)) as He.
  { rewrite Hk by done. unfold RegisterUserDto.to_object.
    rewrite lookup_insert_ne by done. by rewrite lookup_insert_eq. }
  split_and!; try done.
  - simpl. unfold find_by in *.
    rewrite (list_find_app_r _ _ _ Hf). simpl.
    rewrite decide_True by done. done.
  - rewrite Hk by done. by rewrite lookup_insert_eq.
  - rewrite Hk by done. unfold RegisterUserDto.to_object.
    by rewrite !lookup_insert_ne by done.
Qed.

(** C1: after a successful [registerUser(email, password)], a
    [loginUser] with the same email and password succeeds: the stored
    hash compares true against the password, the user returned is the
    registered one, and [verifyUser] accepts the token returned, for as
    long as that token has not expired ([dt1] seconds pass before the
    login, [dt2] more before the verification). The JwtModule is
    assumed to be registered with [envs.jwtSecret]. *)
Theorem loginUser_after_registerUser
    (dto : RegisterUserDto.t) (w w1 : World) (r1 : RegisterUserResponse.t)
    (dt1 dt2 : nat) :
  moduleSecret cfg = envs_jwtSecret cfg →
  (∀ ttl, expiresIn cfg = Some ttl → dt2 < ttl) →
  registerUser cfg dto w = (Ok r1, w1) →
  let u := RegisterUserResponse.data r1 in
  let w2 := elapse dt1 w1 in
  let w3 := elapse dt2 w2 in
  ∃ h r2 r3,
    u !! "password" = Some h ∧
    compareSync (RegisterUserDto.password dto) h = true ∧
    loginUser cfg (LoginUserDto.mk (RegisterUserDto.email dto)
                                   (RegisterUserDto.password dto)) w2
    = (Ok r2, w2) ∧
    LoginUserResponse.user r2 = u ∧
    verifyUser cfg (LoginUserResponse.token r2) w3 = (Ok r3, w3) ∧
    VerifyUserResponse.user r3
    = JwtPayload.mk (String_ (u !! "_id")) (Some (RegisterUserDto.email dto))
        (u !! "username").
Proof.
  intros Hsecret Hlive Hr u w2 w3.
  apply registerUser_then_find in Hr as (Hup & Hf & He & Hp & _). fold u in Hf, He, Hp.
  eexists _, _, _. split; [exact Hp|].
  split; [apply compare_hashWith|].
  split.
  { eapply loginUser_right_password; [exact Hup|exact Hf|exact Hp|].
    apply compare_hashWith. }
  split; [done|]. split.
  - apply verifyUser_accepts. rewrite <- Hsecret.
    apply (verify_at_signed _ (clock w1 + dt1) dt2 Hlive).
  - simpl. by rewrite He.
Qed.

(** *** Runs of [changePassword] *)

Lemma changePassword_bad_token (dto : ChangePasswordDto.t) (w : World) e :
  verify_at (clock w) (ChangePasswordDto.token dto) (moduleSecret cfg) = Throw e →
  changePassword cfg dto w
  = (Throw (RpcException 400 (message e)), set_logged (logged w ++ [e]) w).
Proof.
  intros Hv. unfold changePassword, jwt_verify. run. by rewrite Hv.
Qed.

Lemma changePassword_no_user (dto : ChangePasswordDto.t) (w : World) c :
  verify_at (clock w) (ChangePasswordDto.token dto) (moduleSecret cfg) = Ok c →
  outage w = None →
  find_by "username" (JwtPayload.username (Claims.payload c)) (docs w) = None →
  changePassword cfg dto w
  = (Throw UserNotValid, set_logged (logged w ++ [UserNotValid]) w).
Proof.
  intros Hv Hup Hf. unfold changePassword, jwt_verify. run. rewrite Hv.
  by rewrite (findOne_up _ _ _ Hup), Hf.
Qed.

Lemma changePassword_wrong_password
    (dto : ChangePasswordDto.t) (w : World) c i u h :
  verify_at (clock w) (ChangePasswordDto.token dto) (moduleSecret cfg) = Ok c →
  outage w = None →
  find_by "username" (JwtPayload.username (Claims.payload c)) (docs w)
  = Some (i, u) →
  u !! "password" = Some h →
  compareSync (ChangePasswordDto.password dto) h = false →
  changePassword cfg dto w
  = (Throw PasswordNotValid, set_logged (logged w ++ [PasswordNotValid]) w).
Proof.
  intros Hv Hup Hf Hh Hc.
  unfold changePassword, jwt_verify, bcrypt_compareSync. run. rewrite Hv.
  rewrite (findOne_up _ _ _ Hup), Hf. simpl. rewrite Hh. run.
  by rewrite Hc.
Qed.

(** C6: [changePassword] checks in this order. A token that does not
    verify gives status 400 with the verifier's message, whatever the
    store, the user and the passwords are. With a token that verifies,
    a username that no stored user has gives the not-found error
    ("User not valid"), whatever the passwords are. With a user found,
    an old password that does not match the stored hash gives the
    credentials error ("Password not valid"). In all three cases the
    collection, hence every stored hash, is unchanged. *)
Theorem changePassword_failure_order (dto : ChangePasswordDto.t) (w : World) :
  let verdict :=
    verify_at (clock w) (ChangePasswordDto.token dto) (moduleSecret cfg) in
  (∀ e, verdict = Throw e →
        fst (changePassword cfg dto w) = Throw (RpcException 400 (message e)) ∧
        docs (snd (changePassword cfg dto w)) = docs w) ∧
  (∀ c, verdict = Ok c →
        outage w = None →
        find_by "username" (JwtPayload.username (Claims.payload c)) (docs w)
        = None →
        fst (changePassword cfg dto w) = Throw UserNotValid ∧
        docs (snd (changePassword cfg dto w)) = docs w) ∧
  (∀ c i u h, verdict = Ok c →
        outage w = None →
        find_by "username" (JwtPayload.username (Claims.payload c)) (docs w)
        = Some (i, u) →
        u !! "password" = Some h →
        compareSync (ChangePasswordDto.password dto) h = false →
        fst (changePassword cfg dto w) = Throw PasswordNotValid ∧
        docs (snd (changePassword cfg dto w)) = docs w).
Proof.
  intros verdict. split_and!.
  - intros e Hv. by rewrite (changePassword_bad_token dto w e Hv).
  - intros c Hv Hup Hf. by rewrite (changePassword_no_user dto w c Hv Hup Hf).
  - intros c i u h Hv Hup Hf Hh Hc.
    by rewrite (changePassword_wrong_password dto w c i u h Hv Hup Hf Hh Hc).
Qed.

(** *** A successful [changePassword] *)

Lemma key_not_in_others (f : Doc → option string) (ds : list Doc) i d :
  NoDup (f <$> ds) → ds !! i = Some d → f d ∉ f <$> delete i ds.
Proof.
  intros Hnd Hi. rewrite <- (take_drop_middle ds i d Hi) in Hnd.
  rewrite delete_take_drop.
  rewrite fmap_app, fmap_cons in Hnd. rewrite fmap_app.
  apply NoDup_app in Hnd as (_ & Hl & Hr%NoDup_cons).
  intros [Hin|Hin]%elem_of_app.
  - apply (Hl _ Hin). by left.
  - by destruct Hr.
Qed.

Lemma password_update_accepted (w : World) i u (h' : string) :
  store_ok w → docs w !! i = Some u →
  update_accepted (docs w) i u ({["password" := h']} ∪ u).
Proof.
  intros [_ Hemails] Hi. rewrite <- insert_union_singleton_l. split.
  - by rewrite lookup_insert_ne.
  - rewrite lookup_insert_ne by done.
    by apply (key_not_in_others (λ d : Doc, d !! "email")).
Qed.

Lemma changePassword_right_password
    (dto : ChangePasswordDto.t) (w : World) c i u h :
  store_ok w →
  outage w = None →
  verify_at (clock w) (ChangePasswordDto.token dto) (moduleSecret cfg) = Ok c →
  find_by "username" (JwtPayload.username (Claims.payload c)) (docs w)
  = Some (i, u) →
  u !! "password" = Some h →
  compareSync (ChangePasswordDto.password dto) h = true →
  changePassword cfg dto w
  = (Ok (ChangePasswordResponse.mk (Some u) "Password changed successfully"),
     set_docs
       (<[i := <["password" := hashWith 10 (entropy w)
                                 (ChangePasswordDto.newPassword dto)]> u]> (docs w))
       (set_entropy (S (entropy w)) w)).
Proof.
  intros Hok Hup Hv Hf Hh Hc.
  pose proof Hf as (Hi & _)%find_by_Some.
  unfold changePassword, jwt_verify, bcrypt_compareSync, hashSync. run.
  rewrite Hv, (findOne_up _ _ _ Hup), Hf. simpl. rewrite Hh. run.
  rewrite Hc. simpl.
  rewrite (findOneAndUpdate_accepted _ _ _ i u); simpl; try done.
  - by rewrite <- insert_union_singleton_l.
  - apply find_by_unique; [apply Hok|done..].
  - by apply password_update_accepted.
Qed.

(** What [changePassword] hands back as [data] is the document as it was
    found, with the hash that has just been replaced. *)
Lemma changePassword_returns_record_as_found
    (dto : ChangePasswordDto.t) (w : World) c i u h :
  store_ok w →
  outage w = None →
  verify_at (clock w) (ChangePasswordDto.token dto) (moduleSecret cfg) = Ok c →
  find_by "username" (JwtPayload.username (Claims.payload c)) (docs w)
  = Some (i, u) →
  u !! "password" = Some h →
  compareSync (ChangePasswordDto.password dto) h = true →
  ChangePasswordResponse.data <$> fst_ok (changePassword cfg dto w)
  = Some (Some u).
Proof.
  intros Hok Hup Hv Hf Hh Hc.
  by rewrite (changePassword_right_password dto w c i u h).
Qed.

(** C5 (amended): for the user that a valid token leads to,
    [changePassword] with the matching old password succeeds and replaces
    the stored hash by a hash of the new password, leaving the other
    fields and the other documents alone; from then on [loginUser] with
    that user's email succeeds with every password that compares true
    against the new hash, the new password among them, and fails with the
    credentials error for every password that does not compare true
    against it. So a login with the old password fails on the condition
    that the old password does not compare true against the new hash, and
    only then. The response carries a record of that user. *)
Theorem changePassword_replaces_hash
    (dto : ChangePasswordDto.t) (w : World) c i u h (mail : string) :
  store_ok w →
  outage w = None →
  verify_at (clock w) (ChangePasswordDto.token dto) (moduleSecret cfg) = Ok c →
  find_by "username" (JwtPayload.username (Claims.payload c)) (docs w)
  = Some (i, u) →
  u !! "password" = Some h →
  compareSync (ChangePasswordDto.password dto) h = true →
  u !! "email" = Some mail →
  let h' := hashWith 10 (entropy w) (ChangePasswordDto.newPassword dto) in
  let u' := <["password" := h']> u in
  ∃ r w',
    changePassword cfg dto w = (Ok r, w') ∧
    ChangePasswordResponse.message r = "Password changed successfully" ∧
    (∃ d, ChangePasswordResponse.data r = Some d ∧
          d !! "_id" = u !! "_id" ∧ d !! "email" = u !! "email" ∧
          d !! "username" = u !! "username") ∧
    docs w' = <[i := u']> (docs w) ∧
    (∀ dt, ∃ r2,
       loginUser cfg (LoginUserDto.mk mail (ChangePasswordDto.newPassword dto))
         (elapse dt w') = (Ok r2, elapse dt w') ∧
       LoginUserResponse.user r2 = u') ∧
    (∀ dt p, compareSync p h' = false →
       fst (loginUser cfg (LoginUserDto.mk mail p) (elapse dt w'))
       = Throw InvalidCredentials) ∧
    (∀ dt p, compareSync p h' = true →
       ∃ r2,
         loginUser cfg (LoginUserDto.mk mail p) (elapse dt w')
         = (Ok r2, elapse dt w') ∧
         LoginUserResponse.user r2 = u').
Proof.
  intros Hok Hup Hv Hf Hh Hc Hmail h' u'.
  pose proof Hf as (Hi & _)%find_by_Some.
  eexists _, _. split; [by eapply changePassword_right_password|].
  split; [done|]. split; [by exists u|]. split; [done|].
  fold h' u'.
  assert (find_by "email" (Some mail) (<[i := u']> (docs w)) = Some (i, u'))
    as Hfind.
  { apply find_by_unique.
    - destruct Hok as [_ Hemails]. unfold emails_of in Hemails.
      rewrite list_fmap_insert. subst u'. rewrite lookup_insert_ne by done.
      rewrite list_insert_id; [done|]. by rewrite list_lookup_fmap, Hi.
    - apply list_lookup_insert_eq. by eapply lookup_lt_Some.
    - subst u'. by rewrite lookup_insert_ne. }
  assert (u' !! "password" = Some h') as Hh'.
  { subst u'. by rewrite lookup_insert_eq. }
  split.
  - intros dt. eexists. split.
    + eapply loginUser_right_password; [done|exact Hfind|exact Hh'|].
      apply compare_hashWith.
    + reflexivity.
  - split.
    + intros dt p Hp.
      by erewrite loginUser_wrong_password;
        [|done|exact Hfind|exact Hh'|exact Hp].
    + intros dt p Hp. eexists. split.
      * eapply loginUser_right_password; [done|exact Hfind|exact Hh'|exact Hp].
      * reflexivity.
Qed.

(** *** Invariants of the collection *)

Lemma preserves_ret {A} I (a : A) (Q : A → Prop) :
  Q a → preserves I (mret a) Q.
Proof. intros Ha w Hw. split; [done|]. by intros ? [= <-]. Qed.

Lemma preserves_throw {A} I e (Q : A → Prop) : preserves I (throw e) Q.
Proof. intros w Hw. by split. Qed.

Lemma preserves_bind {A B} I (m : M A) (k : A → M B) Q R :
  preserves I m Q →
  (∀ a, Q a → preserves I (k a) R) →
  preserves I (m ≫= k) R.
Proof.
  intros Hm Hk w Hw. destruct (Hm w Hw) as [Hw' HQ]. run.
  destruct (m w) as [[a|e] w']; simpl in *; [|by split].
  by apply (Hk a (HQ a eq_refl) w').
Qed.

Lemma preserves_tryCatch {A} I (body : M A) (handler : Exn → M A) Q :
  preserves I body Q →
  (∀ e, preserves I (handler e) Q) →
  preserves I (tryCatch body handler) Q.
Proof.
  intros Hb Hh w Hw. destruct (Hb w Hw) as [Hw' HQ]. run.
  destruct (body w) as [[a|e] w']; simpl in *.
  - split; [done|]. intros ? [= <-]. by apply HQ.
  - by apply (Hh e w').
Qed.

Lemma preserves_weaken {A} I (m : M A) (Q R : A → Prop) :
  preserves I m Q → (∀ a, Q a → R a) → preserves I m R.
Proof.
  intros Hm HQR w Hw. destruct (Hm w Hw) as [Hw' HQ].
  split; [done|]. intros a Ha. by apply HQR, HQ.
Qed.

Lemma preserves_logger_error I e :
  about_docs I → preserves I (logger_error e) (λ _, True).
Proof. intros HI w Hw. split; [|done]. by apply (HI w). Qed.

Lemma preserves_rethrow {A} I e (Q : A → Prop) :
  about_docs I → preserves I (rethrow e) Q.
Proof.
  intros HI. unfold rethrow.
  eapply preserves_bind; [by apply preserves_logger_error|].
  intros _ _. apply preserves_throw.
Qed.

Lemma preserves_findOne I field v :
  preserves I (findOne field v) (λ _, True).
Proof.
  intros w Hw. unfold findOne. by destruct (outage w).
Qed.

Lemma preserves_hashSync I data rounds :
  about_docs I → preserves I (hashSync data rounds) hashed.
Proof.
  intros HI w Hw. split; [by apply (HI w)|].
  intros a [= <-]. by eexists _, _, _.
Qed.

Lemma preserves_compareSync I data encrypted :
  preserves I (bcrypt_compareSync data encrypted) (λ _, True).
Proof. intros w Hw. unfold bcrypt_compareSync. by destruct encrypted. Qed.

Lemma preserves_signJWT I payload :
  preserves I (signJWT cfg payload) (λ _, True).
Proof. intros w Hw. by split. Qed.

Lemma preserves_jwt_verify I token key :
  preserves I (jwt_verify token key) (λ _, True).
Proof. intros w Hw. by split. Qed.

Lemma about_docs_passwords_hashed : about_docs (λ w, passwords_hashed (docs w)).
Proof. intros w w' Heq. by rewrite Heq. Qed.

Lemma about_docs_store_ok : about_docs store_ok.
Proof. intros w w' Heq. unfold store_ok. by rewrite Heq. Qed.

(** The store writes, for the invariant on passwords. *)
Lemma create_keeps_passwords_hashed (obj : Doc) :
  (∀ s, obj !! "password" = Some s → hashed s) →
  preserves (λ w, passwords_hashed (docs w)) (create obj) (λ _, True).
Proof.
  intros Hobj w Hw. split; [|done].
  destruct (create obj w) as [[doc|e] w'] eqn:Hc; simpl.
  - apply create_Ok_inv in Hc as (_ & -> & _ & _ & _ & Hk). simpl.
    intros d s [Hd | ->%list_elem_of_singleton]%elem_of_app Hs.
    + by eapply Hw.
    + apply Hobj. by rewrite <- Hk.
  - revert Hc. unfold create. destruct (outage w); [by intros [= <- <-]|].
    repeat case_decide; by intros [= <- <-].
Qed.

Lemma findOneAndUpdate_keeps_passwords_hashed id_ (upd : Doc) :
  (∀ s, upd !! "password" = Some s → hashed s) →
  preserves (λ w, passwords_hashed (docs w)) (findOneAndUpdate id_ upd)
    (λ _, True).
Proof.
  intros Hupd w Hw. split; [|done]. unfold findOneAndUpdate.
  destruct (outage w); [done|].
  destruct (find_by "_id" id_ (docs w)) as [[i d]|] eqn:Hf; [|done].
  repeat case_decide; try done. simpl.
  apply find_by_Some in Hf as (Hi & _).
  intros d' s Hd' Hs.
  apply list_elem_of_lookup in Hd' as [j Hj].
  apply list_lookup_insert_Some in Hj as [(-> & <- & _)|(_ & Hj)].
  - apply lookup_union_Some_raw in Hs as [Hs|[_ Hs]]; [by apply Hupd|].
    eapply Hw; [|exact Hs]. by eapply list_elem_of_lookup_2.
  - eapply Hw; [|exact Hs]. by eapply list_elem_of_lookup_2.
Qed.

(** The store writes, for the keys of the collection. *)
Lemma create_keeps_store_ok (obj : Doc) :
  preserves store_ok (create obj) (λ _, True).
Proof.
  intros w [Hids Hemails]. split; [|done].
  destruct (create obj w) as [[doc|e] w'] eqn:Hc; simpl.
  - apply create_Ok_inv in Hc as (_ & -> & Hid & Hemail & _).
    unfold store_ok, ids_of, emails_of in *. simpl. rewrite !fmap_app. simpl.
    split; apply NoDup_app; (split; [done|]);
      (split; [|apply NoDup_singleton]);
      intros x Hx ->%list_elem_of_singleton; done.
  - revert Hc. unfold create. destruct (outage w); [by intros [= <- <-]|].
    repeat case_decide; by intros [= <- <-].
Qed.

Lemma NoDup_insert_key (f : Doc → option string) (ds : list Doc) i d' :
  NoDup (f <$> ds) → f d' ∉ f <$> delete i ds → NoDup (f <$> <[i := d']> ds).
Proof.
  intros Hnd Hnew.
  destruct (decide (i < length ds)) as [Hlt|Hge];
    [|by rewrite list_insert_ge by lia].
  rewrite insert_take_drop by done.
  rewrite delete_take_drop in Hnew.
  rewrite <- (take_drop i ds) in Hnd.
  rewrite fmap_app in Hnd. apply NoDup_app in Hnd as (Hl & Hdisj & Hr).
  rewrite fmap_app in Hnew. apply not_elem_of_app in Hnew as [Hnl Hnr].
  assert (drop (S i) ds = drop 1 (drop i ds)) as Hdrop.
  { rewrite drop_drop. f_equal. lia. }
  assert (NoDup (f <$> drop (S i) ds)) as Hr'.
  { rewrite Hdrop. destruct (drop i ds) as [|x tl]; [apply NoDup_nil_2|].
    simpl. rewrite drop_0. rewrite fmap_cons in Hr.
    by apply NoDup_cons in Hr as [_ Hr]. }
  rewrite fmap_app, fmap_cons. apply NoDup_app. split_and!; [done| |].
  - intros x Hx [->|Hin]%elem_of_cons; [done|].
    apply (Hdisj x Hx). rewrite Hdrop in Hin.
    apply list_elem_of_fmap in Hin as (y & -> & Hy).
    apply list_elem_of_fmap_2. by eapply subseteq_drop.
  - by apply NoDup_cons.
Qed.

Lemma findOneAndUpdate_keeps_store_ok id_ (upd : Doc) :
  preserves store_ok (findOneAndUpdate id_ upd) (λ _, True).
Proof.
  intros w [Hids Hemails]. split; [|done]. unfold findOneAndUpdate.
  destruct (outage w); [done|].
  destruct (find_by "_id" id_ (docs w)) as [[i d]|] eqn:Hf; [|done].
  case_decide as Hacc; [|by repeat case_decide]. simpl.
  destruct Hacc as [Hid Hemail].
  apply find_by_Some in Hf as (Hi & _).
  unfold store_ok, ids_of, emails_of in *. simpl. split.
  - rewrite list_fmap_insert, Hid.
    rewrite list_insert_id; [done|]. by rewrite list_lookup_fmap, Hi.
  - by apply NoDup_insert_key.
Qed.

(** Every method keeps the primary key and the unique email. *)
Theorem service_keeps_store_ok :
  (∀ dto, preserves store_ok (registerUser cfg dto) (λ _, True)) ∧
  (∀ dto, preserves store_ok (loginUser cfg dto) (λ _, True)) ∧
  (∀ token, preserves store_ok (verifyUser cfg token) (λ _, True)) ∧
  (∀ dto, preserves store_ok (changePassword cfg dto) (λ _, True)) ∧
  (∀ dto, preserves store_ok (updateUser dto) (λ _, True)).
Proof.
  pose proof about_docs_store_ok as HI.
  split_and!; intros x.
  - apply preserves_tryCatch; [|intros e; by apply preserves_rethrow].
    eapply preserves_bind; [apply preserves_findOne|]. intros [u|] _.
    { apply preserves_throw. }
    eapply preserves_bind; [by apply preserves_hashSync|]. intros h _.
    eapply preserves_bind; [apply create_keeps_store_ok|]. intros doc _.
    eapply preserves_bind; [apply preserves_signJWT|]. intros t _.
    by apply preserves_ret.
  - apply preserves_tryCatch; [|intros e; by apply preserves_rethrow].
    eapply preserves_bind; [apply preserves_findOne|]. intros [u|] _.
    2: { apply preserves_throw. }
    eapply preserves_bind; [apply preserves_compareSync|]. intros [|] _; simpl.
    2: { apply preserves_throw. }
    eapply preserves_bind; [apply preserves_signJWT|]. intros t _.
    by apply preserves_ret.
  - apply preserves_tryCatch; [|intros e; by apply preserves_rethrow].
    eapply preserves_bind; [apply preserves_jwt_verify|]. intros c _.
    eapply preserves_bind; [apply preserves_signJWT|]. intros t _.
    by apply preserves_ret.
  - apply preserves_tryCatch; [|intros e; by apply preserves_rethrow].
    eapply preserves_bind; [apply preserves_jwt_verify|]. intros c _.
    eapply preserves_bind; [apply preserves_findOne|]. intros [u|] _.
    2: { apply preserves_throw. }
    eapply preserves_bind; [apply preserves_compareSync|]. intros [|] _; simpl.
    2: { apply preserves_throw. }
    eapply preserves_bind; [by apply preserves_hashSync|]. intros h _.
    eapply preserves_bind; [apply findOneAndUpdate_keeps_store_ok|].
    intros r _. by apply preserves_ret.
  - unfold updateUser.
    eapply preserves_bind; [apply findOneAndUpdate_keeps_store_ok|].
    intros [u|] _; [by apply preserves_ret|apply preserves_throw].
Qed.

(** The four methods that hash what they store keep every stored
    password a hash; [updateUser] does so only for a request without a
    plaintext [password] field. *)
Theorem service_keeps_passwords_hashed :
  let I := λ w, passwords_hashed (docs w) in
  (∀ dto, preserves I (registerUser cfg dto) (λ _, True)) ∧
  (∀ dto, preserves I (loginUser cfg dto) (λ _, True)) ∧
  (∀ token, preserves I (verifyUser cfg token) (λ _, True)) ∧
  (∀ dto, preserves I (changePassword cfg dto) (λ _, True)) ∧
  (∀ dto, (∀ s, UpdateUserDto.fields dto !! "password" = Some s → hashed s) →
          preserves I (updateUser dto) (λ _, True)).
Proof.
  intros I. pose proof about_docs_passwords_hashed as HI.
  split_and!; intros x.
  - apply preserves_tryCatch; [|intros e; by apply preserves_rethrow].
    eapply preserves_bind; [apply preserves_findOne|]. intros [u|] _.
    { apply preserves_throw. }
    eapply preserves_bind; [by apply preserves_hashSync|]. intros h Hh.
    eapply preserves_bind.
    { apply create_keeps_passwords_hashed. intros s.
      rewrite lookup_insert_eq. by intros [= <-]. }
    intros doc _.
    eapply preserves_bind; [apply preserves_signJWT|]. intros t _.
    by apply preserves_ret.
  - apply preserves_tryCatch; [|intros e; by apply preserves_rethrow].
    eapply preserves_bind; [apply preserves_findOne|]. intros [u|] _.
    2: { apply preserves_throw. }
    eapply preserves_bind; [apply preserves_compareSync|]. intros [|] _; simpl.
    2: { apply preserves_throw. }
    eapply preserves_bind; [apply preserves_signJWT|]. intros t _.
    by apply preserves_ret.
  - apply preserves_tryCatch; [|intros e; by apply preserves_rethrow].
    eapply preserves_bind; [apply preserves_jwt_verify|]. intros c _.
    eapply preserves_bind; [apply preserves_signJWT|]. intros t _.
    by apply preserves_ret.
  - apply preserves_tryCatch; [|intros e; by apply preserves_rethrow].
    eapply preserves_bind; [apply preserves_jwt_verify|]. intros c _.
    eapply preserves_bind; [apply preserves_findOne|]. intros [u|] _.
    2: { apply preserves_throw. }
    eapply preserves_bind; [apply preserves_compareSync|]. intros [|] _; simpl.
    2: { apply preserves_throw. }
    eapply preserves_bind; [by apply preserves_hashSync|]. intros h Hh.
    eapply preserves_bind.
    { apply findOneAndUpdate_keeps_passwords_hashed. intros s.
      rewrite lookup_singleton_eq. by intros [= <-]. }
    intros r _. by apply preserves_ret.
  - intros Hpw. unfold updateUser.
    eapply preserves_bind.
    { apply findOneAndUpdate_keeps_passwords_hashed. intros s.
      unfold UpdateUserDto.to_object. rewrite lookup_insert_ne by done.
      apply Hpw. }
    intros [u|] _; [by apply preserves_ret|apply preserves_throw].
Qed.


(** *** Histories *)

(** From an empty collection, whatever happens, the collection keeps its
    primary key and its unique email. *)
Theorem history_keeps_store_ok (evs : list Event) (w : World) :
  docs w = [] → store_ok (after_all cfg evs w).
Proof.
  intros Hempty.
  assert (store_ok w) as Hw.
  { unfold store_ok, ids_of, emails_of. rewrite Hempty. split; apply NoDup_nil_2. }
  clear Hempty. revert w Hw.
  induction evs as [|ev evs IH]; intros w Hw; [done|].
  apply IH. clear IH.
  destruct service_keeps_store_ok as (Hreg & Hlog & Hver & Hchg & Hupd).
  destruct ev as [dto|dto|token|dto|dto|dt|o]; simpl.
  - by apply (Hreg dto w).
  - by apply (Hlog dto w).
  - by apply (Hver token w).
  - by apply (Hchg dto w).
  - by apply (Hupd dto w).
  - by apply (about_docs_store_ok w).
  - by apply (about_docs_store_ok w).
Qed.

(** X13: From an empty collection, as long as no profile update carries a
    password, every stored password is a hash. *)
Theorem history_keeps_passwords_hashed (evs : list Event) (w : World) :
  docs w = [] →
  Forall leaves_password evs →
  passwords_hashed (docs (after_all cfg evs w)).
Proof.
  intros Hempty Hevs.
  assert (passwords_hashed (docs w)) as Hw.
  { rewrite Hempty. intros d s Hd. by apply not_elem_of_nil in Hd. }
  clear Hempty. revert w Hw.
  induction Hevs as [|ev evs Hev _ IH]; intros w Hw; [done|].
  apply IH. clear IH.
  destruct service_keeps_passwords_hashed as (Hreg & Hlog & Hver & Hchg & Hupd).
  destruct ev as [dto|dto|token|dto|dto|dt|o]; simpl.
  - by apply (Hreg dto w).
  - by apply (Hlog dto w).
  - by apply (Hver token w).
  - by apply (Hchg dto w).
  - apply (Hupd dto); [|done]. simpl in Hev. intros s. by rewrite Hev.
  - done.
  - done.
Qed.


(** ** Further properties of the methods *)

(** Unfolding a method down to the state it passes around. *)
Ltac unfold_service :=
  unfold registerUser, loginUser, verifyUser, changePassword, updateUser,
    rethrow, logger_error, signJWT, jwt_sign, jwt_verify, hashSync,
    bcrypt_compareSync, findOne, create, findOneAndUpdate;
  run.

Ltac split_run :=
  repeat (first [case_match | case_decide]; simpl in *; simplify_eq; try done).

Lemma find_by_None_emails (mail : string) (ds : list Doc) :
  find_by "email" (Some mail) ds = None ↔ Some mail ∉ emails_of ds.
Proof.
  rewrite find_by_None. unfold emails_of. rewrite list_elem_of_fmap. split.
  - intros Hn (d & Hd & Hin). apply (Hn d Hin). done.
  - intros Hn d Hd Hv. apply Hn. by exists d.
Qed.

Lemma fresh_id_not_stored (ds : list Doc) :
  Some (fresh (omap id (ids_of ds))) ∉ ids_of ds.
Proof.
  intros Hin. apply (infinite_is_fresh (omap id (ids_of ds))).
  apply list_elem_of_omap. by exists (Some (fresh (omap id (ids_of ds)))).
Qed.

Lemma create_accepts (obj : Doc) (w : World) :
  outage w = None →
  obj !! "_id" = None →
  obj !! "email" ∉ emails_of (docs w) →
  ∃ doc, create obj w = (Ok doc, set_docs (docs w ++ [doc]) w).
Proof.
  intros Hup Hnoid Hmail. unfold create. rewrite Hup, Hnoid.
  rewrite lookup_insert_eq, lookup_insert_ne by done.
  rewrite decide_False by apply fresh_id_not_stored.
  rewrite decide_False by done. by eexists.
Qed.

(** X1: A successful [registerUser] appends exactly one document to the
    collection, the one in the response: it has the submitted email, the
    hash of the submitted password in place of the password, every other
    submitted profile field as submitted, and an [_id] that no stored
    document had; the token is the one issued for that document. *)
Theorem registerUser_persists_request
    (dto : RegisterUserDto.t) (w w' : World) (r : RegisterUserResponse.t) :
  registerUser cfg dto w = (Ok r, w') →
  let doc := RegisterUserResponse.data r in
  docs w' = docs w ++ [doc] ∧
  doc !! "email" = Some (RegisterUserDto.email dto) ∧
  doc !! "password"
  = Some (hashWith 10 (entropy w) (RegisterUserDto.password dto)) ∧
  (∀ k, k ≠ "_id" → k ≠ "email" → k ≠ "password" →
        doc !! k = RegisterUserDto.profile dto !! k) ∧
  is_Some (doc !! "_id") ∧
  (doc !! "_id" ∉ ids_of (docs w)) ∧
  RegisterUserResponse.token r = token_for cfg doc (clock w) ∧
  RegisterUserResponse.message r = "The user was created successfully".
Proof.
  intros Hr doc. apply registerUser_Ok_inv in Hr as (_ & _ & Hc & ->).
  fold doc in Hc |- *.
  apply create_Ok_inv in Hc as (_ & -> & Hid & _ & Hsome & Hk).
  split_and!; try done.
  - rewrite Hk by done. unfold RegisterUserDto.to_object.
    rewrite lookup_insert_ne by done. by rewrite lookup_insert_eq.
  - rewrite Hk by done. by rewrite lookup_insert_eq.
  - intros k H1 H2 H3. rewrite Hk by done. unfold RegisterUserDto.to_object.
    by rewrite !lookup_insert_ne by done.
Qed.

(** X2: For a request whose profile brings no [_id] of its own,
    [registerUser] succeeds exactly when the store is reachable and no
    stored user has the email. *)
Theorem registerUser_succeeds_iff (dto : RegisterUserDto.t) (w : World) :
  RegisterUserDto.profile dto !! "_id" = None →
  (∃ r w', registerUser cfg dto w = (Ok r, w')) ↔
  outage w = None ∧
  find_by "email" (Some (RegisterUserDto.email dto)) (docs w) = None.
Proof.
  intros Hnoid. split.
  - intros (r & w' & Hr). by apply registerUser_Ok_inv in Hr as (? & ? & _).
  - intros [Hup Hf]. unfold registerUser, hashSync, signJWT, jwt_sign. run.
    rewrite (findOne_up _ _ _ Hup), Hf. simpl.
    edestruct (create_accepts
                 (<["password" := hashWith 10 (entropy w)
                                    (RegisterUserDto.password dto)]>
                    (RegisterUserDto.to_object dto))
                 (set_entropy (S (entropy w)) w)) as [doc ->]; [done| | |].
    + unfold RegisterUserDto.to_object. by rewrite !lookup_insert_ne by done.
    + unfold RegisterUserDto.to_object. rewrite lookup_insert_ne by done.
      rewrite lookup_insert_eq. by apply find_by_None_emails.
    + by eexists _, _.
Qed.

Lemma loginUser_Ok_inv (dto : LoginUserDto.t) (w w' : World)
    (r : LoginUserResponse.t) :
  loginUser cfg dto w = (Ok r, w') →
  outage w = None ∧
  ∃ i u h,
    find_by "email" (Some (LoginUserDto.email dto)) (docs w) = Some (i, u) ∧
    u !! "password" = Some h ∧
    compareSync (LoginUserDto.password dto) h = true.
Proof.
  unfold_service.
  destruct (outage w) as [m|]; [done|].
  destruct (find_by "email" _ (docs w)) as [[i u]|] eqn:Hf; [|done]. simpl.
  destruct (u !! "password") as [h|] eqn:Hh; [|done]. run.
  destruct (compareSync _ h) eqn:Hc; [|done]. intros _.
  split; [done|]. by exists i, u, h.
Qed.

(** X3: [loginUser] succeeds exactly when the store is reachable, a stored
    user has the email, and the submitted password compares true against
    the hash of the first such user. *)
Theorem loginUser_succeeds_iff (dto : LoginUserDto.t) (w : World) :
  (∃ r w', loginUser cfg dto w = (Ok r, w')) ↔
  outage w = None ∧
  ∃ i u h,
    find_by "email" (Some (LoginUserDto.email dto)) (docs w) = Some (i, u) ∧
    u !! "password" = Some h ∧
    compareSync (LoginUserDto.password dto) h = true.
Proof.
  split.
  - intros (r & w' & Hr). by apply loginUser_Ok_inv in Hr.
  - intros (Hup & i & u & h & Hf & Hh & Hc).
    eexists _, _. by eapply loginUser_right_password.
Qed.


(** X4: The token in the response of a successful [registerUser] is accepted
    by [verifyUser] for as long as it has not expired, and identifies the
    new user by id, email and username. The JwtModule is assumed to be
    registered with [envs.jwtSecret]. *)
Theorem registerUser_token_verifies
    (dto : RegisterUserDto.t) (w w' : World) (r : RegisterUserResponse.t)
    (dt : nat) :
  moduleSecret cfg = envs_jwtSecret cfg →
  (∀ ttl, expiresIn cfg = Some ttl → dt < ttl) →
  registerUser cfg dto w = (Ok r, w') →
  let doc := RegisterUserResponse.data r in
  ∃ r',
    verifyUser cfg (RegisterUserResponse.token r) (elapse dt w')
    = (Ok r', elapse dt w') ∧
    VerifyUserResponse.user r'
    = JwtPayload.mk (String_ (doc !! "_id")) (Some (RegisterUserDto.email dto))
        (RegisterUserDto.profile dto !! "username").
Proof.
  intros Hsecret Hlive Hr doc.
  pose proof (registerUser_then_find _ _ _ _ Hr) as (_ & _ & He & _ & Hu).
  apply registerUser_Ok_inv in Hr as (_ & _ & Hc & ->). fold doc in Hc, He, Hu |- *.
  apply create_Ok_inv in Hc as (_ & -> & _).
  eexists. split.
  - apply verifyUser_accepts. rewrite <- Hsecret. simpl.
    by apply verify_at_signed.
  - simpl. by rewrite He, Hu.
Qed.

(** X5: Sliding renewal: when [verifyUser] accepts a token, the token it
    returns is accepted in turn for a full lifetime counted from the
    verification, whatever was left of the first token's lifetime, and
    names the same user. *)
Theorem verifyUser_renews_session (token : string) (c : Claims.t)
    (w : World) (dt : nat) :
  moduleSecret cfg = envs_jwtSecret cfg →
  (∀ ttl, expiresIn cfg = Some ttl → dt < ttl) →
  verify_at (clock w) token (envs_jwtSecret cfg) = Ok c →
  ∃ r1 r2,
    verifyUser cfg token w = (Ok r1, w) ∧
    VerifyUserResponse.user r1 = Claims.payload c ∧
    verifyUser cfg (VerifyUserResponse.token r1) (elapse dt w)
    = (Ok r2, elapse dt w) ∧
    VerifyUserResponse.user r2 = Claims.payload c.
Proof.
  intros Hsecret Hlive Hv.
  eexists _, _. split; [by apply verifyUser_accepts|].
  split; [done|]. split.
  - apply verifyUser_accepts. rewrite <- Hsecret. simpl.
    by apply verify_at_signed.
  - reflexivity.
Qed.

(** X6: A token that [signJWT] issued is refused by [verifyUser] from the
    moment its lifetime is over: the caller gets status 400, the
    verifier's error is logged, and no new token is issued. *)
Theorem verifyUser_refuses_expired (payload : JwtPayload.t) (w : World)
    (ttl dt : nat) :
  moduleSecret cfg = envs_jwtSecret cfg →
  expiresIn cfg = Some ttl →
  ttl ≤ dt →
  ∃ t,
    signJWT cfg payload w = (Ok t, w) ∧
    verifyUser cfg t (elapse dt w)
    = (Throw (RpcException 400 "jwt expired"),
       set_logged (logged w ++ [JsError "jwt expired"]) (elapse dt w)).
Proof.
  intros Hsecret Httl Hdt. eexists. split; [apply signJWT_run|].
  unfold verifyUser, jwt_verify, verify_at. run.
  rewrite <- Hsecret, jwt_decode_encode. unfold claims_at. rewrite Httl.
  simpl. rewrite decide_True by lia. reflexivity.
Qed.

(** No method moves the clock. *)
Lemma timeless_clock (ev : Event) (w : World) :
  timeless ev → clock (after cfg ev w) = clock w.
Proof.
  destruct ev as [dto|dto|token|dto|dto|dt|o]; simpl; try done; intros _;
    unfold_service; split_run.
Qed.

(** X7: [verifyUser] consults the token and the clock only: no call of any
    method and no outage in between changes its answer. In particular a
    password change does not revoke the tokens issued before it. *)
Theorem verifyUser_unaffected_by_history
    (token : string) (evs : list Event) (w : World) :
  Forall timeless evs →
  fst (verifyUser cfg token (after_all cfg evs w))
  = fst (verifyUser cfg token w).
Proof.
  intros Hevs.
  assert (clock (after_all cfg evs w) = clock w) as Hclock.
  { revert w. induction Hevs as [|ev evs Hev _ IH]; intros w; [done|].
    simpl. rewrite IH. by apply timeless_clock. }
  unfold verifyUser, jwt_verify, signJWT, jwt_sign, rethrow, logger_error. run.
  rewrite Hclock. by destruct (verify_at _ _ _).
Qed.


(** X8: A call that fails has written nothing: whichever of the five methods
    throws, the collection is as it was before the call. *)
Theorem failed_call_writes_nothing (w : World) :
  (∀ dto e, fst (registerUser cfg dto w) = Throw e →
            docs (snd (registerUser cfg dto w)) = docs w) ∧
  (∀ dto e, fst (loginUser cfg dto w) = Throw e →
            docs (snd (loginUser cfg dto w)) = docs w) ∧
  (∀ token e, fst (verifyUser cfg token w) = Throw e →
              docs (snd (verifyUser cfg token w)) = docs w) ∧
  (∀ dto e, fst (changePassword cfg dto w) = Throw e →
            docs (snd (changePassword cfg dto w)) = docs w) ∧
  (∀ dto e, fst (updateUser dto w) = Throw e →
            docs (snd (updateUser dto w)) = docs w).
Proof.
  split_and!; intros x e; unfold_service; split_run.
Qed.

(** X9: [loginUser] and [verifyUser] only read: whatever the outcome, the
    collection and the hasher's entropy are as before, and a call that
    succeeds leaves the whole world as it was. *)
Theorem loginUser_verifyUser_read_only (w : World) :
  (∀ dto, let out := loginUser cfg dto w in
          docs (snd out) = docs w ∧ entropy (snd out) = entropy w ∧
          ∀ r, fst out = Ok r → snd out = w) ∧
  (∀ token, let out := verifyUser cfg token w in
            docs (snd out) = docs w ∧ entropy (snd out) = entropy w ∧
            ∀ r, fst out = Ok r → snd out = w).
Proof.
  split; intros x; unfold_service; split_run.
Qed.

(** X10: The four methods with a catch block log exactly their failures: a
    call that succeeds logs nothing, and a call that fails adds one entry
    to the log, the error that was caught, and throws status 400 with
    that error's message. *)
Theorem guarded_methods_log_failures_only (w : World) :
  (∀ dto, logs_failures_only w (registerUser cfg dto w)) ∧
  (∀ dto, logs_failures_only w (loginUser cfg dto w)) ∧
  (∀ token, logs_failures_only w (verifyUser cfg token w)) ∧
  (∀ dto, logs_failures_only w (changePassword cfg dto w)).
Proof.
  split_and!; intros x; split; intros y; unfold_service; split_run.
  all: simpl; intros [= <-]; eexists; (split; [|reflexivity]); reflexivity.
Qed.

(** X11: While the store is unreachable, [registerUser] and [loginUser] fail
    with status 400 and the driver's message, and so does [changePassword]
    once its token has verified; the driver's error is what gets logged,
    and nothing else changes. *)
Theorem guarded_methods_during_outage (w : World) (m : string) :
  outage w = Some m →
  let w' := set_logged (logged w ++ [JsError m]) w in
  (∀ dto, registerUser cfg dto w = (Throw (RpcException 400 m), w')) ∧
  (∀ dto, loginUser cfg dto w = (Throw (RpcException 400 m), w')) ∧
  (∀ dto c,
     verify_at (clock w) (ChangePasswordDto.token dto) (moduleSecret cfg) = Ok c →
     changePassword cfg dto w = (Throw (RpcException 400 m), w')).
Proof.
  intros Hdown w'. split_and!.
  - intros dto. unfold_service. by rewrite Hdown.
  - intros dto. unfold_service. by rewrite Hdown.
  - intros dto c Hv. unfold_service. by rewrite Hv, Hdown.
Qed.

(** X12: [changePassword] identifies the user by the username in the token and
    by nothing else: two requests whose tokens verify and carry the same
    username, with the same old and new password, have the same outcome,
    whatever the ids and emails in the tokens and whatever the repeated
    new passwords are. *)
Theorem changePassword_goes_by_username
    (dto1 dto2 : ChangePasswordDto.t) (c1 c2 : Claims.t) (w : World) :
  verify_at (clock w) (ChangePasswordDto.token dto1) (moduleSecret cfg) = Ok c1 →
  verify_at (clock w) (ChangePasswordDto.token dto2) (moduleSecret cfg) = Ok c2 →
  JwtPayload.username (Claims.payload c1) = JwtPayload.username (Claims.payload c2) →
  ChangePasswordDto.password dto1 = ChangePasswordDto.password dto2 →
  ChangePasswordDto.newPassword dto1 = ChangePasswordDto.newPassword dto2 →
  changePassword cfg dto1 w = changePassword cfg dto2 w.
Proof.
  intros Hv1 Hv2 Hname Hold Hnew.
  unfold changePassword, jwt_verify. run.
  by rewrite Hv1, Hv2, Hname, Hold, Hnew.
Qed.


(** What [registerUser] does to the collection and to the store's
    reachability, whatever its outcome. *)
Lemma registerUser_appends (dto : RegisterUserDto.t) (w : World) :
  outage (snd (registerUser cfg dto w)) = outage w ∧
  (docs (snd (registerUser cfg dto w)) = docs w ∨
   ∃ doc, docs (snd (registerUser cfg dto w)) = docs w ++ [doc]).
Proof.
  unfold_service. split_run; split; try done; try (by left); right; by eexists.
Qed.

(** X14: A registration, successful or not, does not disturb the users already
    stored: whoever could log in before can log in after it, with the same
    credentials and as the same user. *)
Theorem registerUser_keeps_logins
    (login : LoginUserDto.t) (r : LoginUserResponse.t)
    (dto : RegisterUserDto.t) (w w0 : World) :
  loginUser cfg login w = (Ok r, w0) →
  let w' := snd (registerUser cfg dto w) in
  ∃ r', loginUser cfg login w' = (Ok r', w') ∧
        LoginUserResponse.user r' = LoginUserResponse.user r.
Proof.
  intros Hlogin w'.
  pose proof Hlogin as (Hup & i & u & h & Hf & Hh & Hc)%loginUser_Ok_inv.
  rewrite (loginUser_right_password login w i u h Hup Hf Hh Hc) in Hlogin.
  injection Hlogin as <- <-.
  destruct (registerUser_appends dto w) as [Hout Hdocs]. fold w' in Hout, Hdocs.
  assert (find_by "email" (Some (LoginUserDto.email login)) (docs w') = Some (i, u))
    as Hf'.
  { destruct Hdocs as [->|[doc ->]]; [done|]. by apply list_find_app_l. }
  eexists. split.
  - eapply loginUser_right_password; [by rewrite Hout|exact Hf'|exact Hh|exact Hc].
  - reflexivity.
Qed.

(** The merged document after an accepted update. *)
Lemma updateUser_lookup (dto : UpdateUserDto.t) (d : Doc) (k : string) :
  k ≠ "id" →
  (UpdateUserDto.to_object dto ∪ d) !! k
  = match UpdateUserDto.fields dto !! k with
    | Some v => Some v
    | None => d !! k
    end.
Proof.
  intros Hk. rewrite lookup_union. unfold UpdateUserDto.to_object.
  rewrite lookup_insert_ne by done.
  destruct (UpdateUserDto.fields dto !! k), (d !! k); done.
Qed.

Lemma find_by_moved (field : string) (old : option string) (ds : list Doc)
    i d d' :
  (∀ j e, ds !! j = Some e → j ≠ i → e !! field ≠ old) →
  ds !! i = Some d →
  d' !! field ≠ old →
  find_by field old (<[i := d']> ds) = None.
Proof.
  intros Hothers Hi Hnew. apply find_by_None. intros e He.
  apply list_elem_of_lookup in He as [j Hj].
  apply list_lookup_insert_Some in Hj as [(-> & <- & _)|(Hne & Hj)]; [done|].
  by apply (Hothers j e).
Qed.

Lemma unique_key_others (f : Doc → option string) (ds : list Doc) i d :
  NoDup (f <$> ds) → ds !! i = Some d →
  ∀ j e, ds !! j = Some e → j ≠ i → f e ≠ f d.
Proof.
  intros Hnd Hi j e Hj Hne Heq. apply Hne.
  eapply NoDup_lookup; [exact Hnd| |]; rewrite list_lookup_fmap.
  - by rewrite Hj.
  - rewrite Hi. simpl. by rewrite Heq.
Qed.

(** X15: A profile update that changes the email moves the login with it:
    afterwards [loginUser] succeeds with the new email and the unchanged
    password, as the updated user, and fails with the credentials error
    for the former email. *)
Theorem updateUser_moves_login
    (dto : UpdateUserDto.t) (w : World) i d h (mail' pw : string) :
  outage w = None →
  store_ok w →
  find_by "_id" (Some (UpdateUserDto.id dto)) (docs w) = Some (i, d) →
  update_accepted (docs w) i d (UpdateUserDto.to_object dto ∪ d) →
  UpdateUserDto.fields dto !! "email" = Some mail' →
  UpdateUserDto.fields dto !! "password" = None →
  d !! "password" = Some h →
  compareSync pw h = true →
  let w' := snd (updateUser dto w) in
  (∃ r, loginUser cfg (LoginUserDto.mk mail' pw) w' = (Ok r, w') ∧
        LoginUserResponse.user r = UpdateUserDto.to_object dto ∪ d) ∧
  (∀ mail, d !! "email" = Some mail → mail ≠ mail' →
           fst (loginUser cfg (LoginUserDto.mk mail pw) w')
           = Throw InvalidCredentials).
Proof.
  intros Hup Hok Hf Hacc Hmail Hnopw Hh Hc w'.
  pose proof Hf as (Hi & _)%find_by_Some.
  subst w'. rewrite (updateUser_existing dto w i d Hup Hf Hacc). simpl.
  set (d' := UpdateUserDto.to_object dto ∪ d).
  set (w' := set_docs (<[i:=d']> (docs w)) w).
  assert (d' !! "email" = Some mail') as Hmail'.
  { subst d'. rewrite updateUser_lookup by done. by rewrite Hmail. }
  assert (d' !! "password" = Some h) as Hh'.
  { subst d'. rewrite updateUser_lookup by done. by rewrite Hnopw. }
  destruct Hok as [_ Hemails]. split.
  - eexists. split.
    + eapply (loginUser_right_password _ w' i d' h); [done| |exact Hh'|exact Hc].
      apply find_by_unique; simpl.
      * apply NoDup_insert_key; [done|]. by destruct Hacc.
      * apply list_lookup_insert_eq. by eapply lookup_lt_Some.
      * done.
    + reflexivity.
  - intros mail Hold Hne.
    rewrite (loginUser_no_user _ w'); [done..|]. simpl.
    apply (find_by_moved "email" (Some mail) (docs w) i d d'); [|done|].
    + intros j e Hj Hji. rewrite <- Hold.
      exact (unique_key_others (λ d : Doc, d !! "email") (docs w) i d
               Hemails Hi j e Hj Hji).
    + rewrite Hmail'. by intros [= ->].
Qed.

(** X16: [changePassword] finds the user by the username in the token, so a
    token issued before the user was renamed no longer leads to them:
    after an update that changes the username, and with no other user
    under the former name, [changePassword] with such a token fails with
    "User not valid", whatever the passwords are. *)
Theorem changePassword_after_rename
    (upd : UpdateUserDto.t) (dto : ChangePasswordDto.t) (c : Claims.t)
    (w : World) i d (name name' : string) :
  outage w = None →
  find_by "_id" (Some (UpdateUserDto.id upd)) (docs w) = Some (i, d) →
  update_accepted (docs w) i d (UpdateUserDto.to_object upd ∪ d) →
  UpdateUserDto.fields upd !! "username" = Some name' →
  name' ≠ name →
  (∀ j e, docs w !! j = Some e → j ≠ i → e !! "username" ≠ Some name) →
  verify_at (clock w) (ChangePasswordDto.token dto) (moduleSecret cfg) = Ok c →
  JwtPayload.username (Claims.payload c) = Some name →
  let w' := snd (updateUser upd w) in
  fst (changePassword cfg dto w') = Throw UserNotValid ∧
  docs (snd (changePassword cfg dto w')) = docs w'.
Proof.
  intros Hup Hf Hacc Hname Hne Hothers Hv Hc w'.
  pose proof Hf as (Hi & _)%find_by_Some.
  subst w'. rewrite (updateUser_existing upd w i d Hup Hf Hacc). simpl.
  rewrite (changePassword_no_user dto _ c); [done|done|done|].
  rewrite Hc. simpl.
  apply (find_by_moved "username" (Some name) (docs w) i d); [done..|].
  rewrite updateUser_lookup by done. rewrite Hname. by intros [= ->].
Qed.

End Properties.

(** * The service at work on concrete requests *)

Module Scenario.
Import Fakes.

Lemma register_alice : register alice world0 = (Ok alice_registered, world1).
Proof. vm_compute. reflexivity. Qed.

Lemma world1_docs : docs world1 = [alice_doc].
Proof. vm_compute. reflexivity. Qed.

Lemma world1_store_ok : store_ok world1.
Proof.
  unfold store_ok, ids_of, emails_of. rewrite world1_docs. simpl.
  split; apply NoDup_singleton.
Qed.

Lemma find_alice_by field v :
  alice_doc !! field = v →
  find_by field v (docs world1) = Some (0, alice_doc).
Proof.
  intros Hv. rewrite world1_docs. unfold find_by. simpl.
  by rewrite decide_True.
Qed.

Lemma find_nobody_by field v :
  alice_doc !! field ≠ v → find_by field v (docs world1) = None.
Proof.
  intros Hv. rewrite world1_docs. unfold find_by. simpl.
  by rewrite decide_False.
Qed.

Lemma alice_live : ∀ t, expiresIn cfg = Some t → 120 < t.
Proof. intros t [= <-]. unfold ttl. lia. Qed.

(** C1, on Alice: she registers, logs in a minute later, and her token
    verifies two minutes after that. *)
Lemma loginUser_after_registerUser_witness :
  ∃ h r2 r3,
    alice_doc !! "password" = Some h ∧
    compareSync "Secret123!" h = true ∧
    login alice_login (elapse 60 world1) = (Ok r2, elapse 60 world1) ∧
    LoginUserResponse.user r2 = alice_doc ∧
    verify (LoginUserResponse.token r2) (elapse 120 (elapse 60 world1))
    = (Ok r3, elapse 120 (elapse 60 world1)) ∧
    VerifyUserResponse.user r3
    = JwtPayload.mk "0" (Some "a@x.com") (Some "alice").
Proof.
  exact (loginUser_after_registerUser cfg alice world0 world1 alice_registered
           60 120 eq_refl alice_live register_alice).
Defined.

(** C2, on Alice registering a second time. *)
Lemma registerUser_existing_email_witness :
  ∃ w', register alice world1 = (Throw AlreadyExists, w') ∧
        docs w' = docs world1 ∧
        w' = set_logged (logged world1 ++ [AlreadyExists]) world1.
Proof.
  apply (registerUser_existing_email cfg alice world1 alice_doc).
  - reflexivity.
  - rewrite world1_docs. by left.
  - reflexivity.
Defined.

(** C3, on an unknown email and on Alice's email with a wrong password. *)
Lemma loginUser_failures_indistinguishable_witness :
  fst (login (LoginUserDto.mk "nobody@x.com" "Secret123!") world1)
  = Throw InvalidCredentials ∧
  fst (login (LoginUserDto.mk "a@x.com" "secret123") world1)
  = fst (login (LoginUserDto.mk "nobody@x.com" "Secret123!") world1).
Proof.
  destruct (loginUser_failures_indistinguishable cfg
              (LoginUserDto.mk "nobody@x.com" "Secret123!")
              (LoginUserDto.mk "a@x.com" "secret123")
              world1 world1 0 alice_doc "$2b$ASecret123!")
    as (H1 & H2 & _).
  - reflexivity.
  - reflexivity.
  - by apply find_nobody_by.
  - by apply find_alice_by.
  - reflexivity.
  - reflexivity.
  - exact (conj H1 H2).
Defined.

(** C4, on Alice's payload: signed at time 1000, verified ten seconds
    later. *)
Lemma verifyUser_signJWT_roundtrip_witness :
  ∃ t t',
    signJWT cfg (JwtPayload.mk "0" (Some "a@x.com") (Some "alice")) world0
    = (Ok t, world0) ∧
    verify t (elapse 10 world0)
    = (Ok (VerifyUserResponse.mk
             (JwtPayload.mk "0" (Some "a@x.com") (Some "alice")) t'
             "Successfully verified user"),
       elapse 10 world0).
Proof.
  destruct (verifyUser_signJWT_roundtrip cfg
              (JwtPayload.mk "0" (Some "a@x.com") (Some "alice")) world0 10)
    as (t & t' & r & Hs & _ & Hv & -> & _).
  - reflexivity.
  - intros t [= <-]. unfold ttl. lia.
  - by exists t, t'.
Defined.

Lemma alice_token_verifies :
  verify_at (clock world1) alice_token (moduleSecret cfg) = Ok alice_claims.
Proof. vm_compute. reflexivity. Qed.

(** C5 as stated fails when the new password equals the old one: the
    change succeeds, a login with the old password still succeeds
    afterwards, and the record in the response carries the hash that
    was replaced, not the stored one. *)
Lemma changePassword_claim_counterexample :
  ∃ r w' d d',
    change alice_rechange world1 = (Ok r, w') ∧
    (∃ r2, login (LoginUserDto.mk "a@x.com" "Secret123!") w' = (Ok r2, w')) ∧
    ChangePasswordResponse.data r = Some d ∧
    docs w' = [d'] ∧
    d !! "password" = Some "$2b$ASecret123!" ∧
    d' !! "password" = Some "$2b$BSecret123!" ∧
    d ≠ d'.
Proof.
  eexists _, _, _, _. split; [vm_compute; reflexivity|].
  split; [eexists; vm_compute; reflexivity|].
  split; [reflexivity|]. split; [reflexivity|].
  split; [vm_compute; reflexivity|]. split; [vm_compute; reflexivity|].
  intros Heq. apply (f_equal (λ m : Doc, m !! "password")) in Heq.
  vm_compute in Heq. discriminate Heq.
Qed.

(** C5 (amended), on Alice changing her password to a different one. *)
Lemma changePassword_replaces_hash_witness :
  ∃ r w',
    change alice_change world1 = (Ok r, w') ∧
    docs w' = [ <["password" := "$2b$BN3w-Secret!"]> alice_doc ] ∧
    (∃ r2, login (LoginUserDto.mk "a@x.com" "N3w-Secret!") w' = (Ok r2, w')) ∧
    fst (login (LoginUserDto.mk "a@x.com" "Secret123!") w')
    = Throw InvalidCredentials.
Proof.
  destruct (changePassword_replaces_hash cfg alice_change world1 alice_claims
              0 alice_doc "$2b$ASecret123!" "a@x.com")
    as (r & w' & Hrun & _ & _ & Hdocs & Hnew & Hold & _).
  - exact world1_store_ok.
  - reflexivity.
  - exact alice_token_verifies.
  - by apply find_alice_by.
  - reflexivity.
  - reflexivity.
  - reflexivity.
  - exists r, w'. split; [exact Hrun|]. split.
    + rewrite Hdocs, world1_docs. reflexivity.
    + split.
      * destruct (Hnew 0) as (r2 & Hr2 & _). exists r2.
        replace (elapse 0 w') with w' in Hr2; [exact Hr2|].
        destruct w'. unfold elapse. simpl. f_equal. lia.
      * specialize (Hold 0 "Secret123!" eq_refl).
        replace (elapse 0 w') with w' in Hold; [exact Hold|].
        destruct w'. unfold elapse. simpl. f_equal. lia.
Defined.

(** C6, on three failing requests: a token that is no token, a token
    for a username that nobody has, and Alice's token with a wrong old
    password. *)
Lemma changePassword_failure_order_witness :
  (fst (change (ChangePasswordDto.mk "garbage" "Secret123!" "N3w-Secret!"
                  "N3w-Secret!") world1)
   = Throw (RpcException 400 "invalid token")) ∧
  (fst (change (ChangePasswordDto.mk bob_token "Secret123!" "N3w-Secret!"
                  "N3w-Secret!") world1)
   = Throw UserNotValid) ∧
  (fst (change (ChangePasswordDto.mk alice_token "secret123" "N3w-Secret!"
                  "N3w-Secret!") world1)
   = Throw PasswordNotValid).
Proof.
  split_and!.
  - refine (proj1 (proj1 (changePassword_failure_order cfg
              (ChangePasswordDto.mk "garbage" "Secret123!" "N3w-Secret!"
                 "N3w-Secret!") world1) (JsError "invalid token") _)).
    vm_compute. reflexivity.
  - refine (proj1 (proj1 (proj2 (changePassword_failure_order cfg
              (ChangePasswordDto.mk bob_token "Secret123!" "N3w-Secret!"
                 "N3w-Secret!") world1))
              (Claims.mk (JwtPayload.mk "9" (Some "b@x.com") (Some "bob"))
                 None 1000 (Some 4600)) _ _ _)).
    + vm_compute. reflexivity.
    + reflexivity.
    + by apply find_nobody_by.
  - refine (proj1 (proj2 (proj2 (changePassword_failure_order cfg
              (ChangePasswordDto.mk alice_token "secret123" "N3w-Secret!"
                 "N3w-Secret!") world1))
              alice_claims 0 alice_doc "$2b$ASecret123!" _ _ _ _ _)).
    + exact alice_token_verifies.
    + reflexivity.
    + by apply find_alice_by.
    + reflexivity.
    + reflexivity.
Defined.

Lemma alice_update_accepted :
  update_accepted (docs world1) 0 alice_doc
    (UpdateUserDto.to_object alice_update ∪ alice_doc).
Proof.
  rewrite world1_docs. split; [reflexivity|]. simpl. apply not_elem_of_nil.
Qed.

Lemma fake_plaintext_not_hashed : ¬ hashed "N3w-Secret!".
Proof. intros (rounds & e & data & Heq). discriminate Heq. Qed.

(** C7, on Alice: before the update every stored password is a hash;
    after it her document holds the submitted password as it came. *)
Lemma updateUser_persists_submitted_password_witness :
  passwords_hashed (docs world1) ∧
  ∃ r w' d',
    update alice_update world1 = (Ok r, w') ∧
    docs w' !! 0 = Some d' ∧
    d' !! "password" = Some "N3w-Secret!" ∧
    ¬ passwords_hashed (docs w').
Proof.
  split.
  - rewrite world1_docs. intros d s ->%list_elem_of_singleton [= <-].
    by exists 10, 65, "Secret123!".
  - destruct (updateUser_persists_submitted_password alice_update world1
                0 alice_doc "N3w-Secret!")
      as (r & w' & d' & Hrun & Hd' & _ & Hp).
    + reflexivity.
    + by apply find_alice_by.
    + exact alice_update_accepted.
    + reflexivity.
    + exists r, w', d'. split_and!; try done.
      intros Hinv. apply fake_plaintext_not_hashed.
      apply (Hinv d' _); [|exact Hp]. by eapply list_elem_of_lookup_2.
Defined.

(** C8, on an update for an unknown id (nothing is logged) and on an
    update while the store is down (the driver's error comes through
    unwrapped). *)
Lemma updateUser_errors_bypass_catch_witness :
  (update nobody_update world1 = (Throw NotUpdated, world1) ∧
   logged (snd (update nobody_update world1)) = []) ∧
  (update alice_update world_down
   = (Throw (JsError "connect ECONNREFUSED"), world_down) ∧
   ¬ surfaced (update alice_update world_down)).
Proof.
  split.
  - apply (proj1 (updateUser_errors_bypass_catch nobody_update world1)).
    + reflexivity.
    + by apply find_nobody_by.
  - apply (proj2 (updateUser_errors_bypass_catch alice_update world_down)
             "connect ECONNREFUSED").
    reflexivity.
Defined.

Lemma world2_docs : docs world2 = [alice_doc; bob_doc].
Proof. vm_compute. reflexivity. Qed.

Lemma find_bob_by_id :
  find_by "_id" (Some "1") (docs world2) = Some (1, bob_doc).
Proof. rewrite world2_docs. vm_compute. reflexivity. Qed.

Lemma bob_takes_alice_email_refused :
  ¬ update_accepted (docs world2) 1 bob_doc
      (UpdateUserDto.to_object bob_takes_alice_email ∪ bob_doc).
Proof.
  intros [_ Hfree]. apply Hfree. rewrite world2_docs. vm_compute. left.
Defined.

(** C9 as stated fails on an existing id when the store refuses the
    write: Bob is stored under id ["1"] and the store is reachable, but
    an update that would give him Alice's email is not applied and does
    not return the submitted fields; the call throws and the world is as
    before. *)
Lemma updateUser_claim_counterexample :
  find_by "_id" (Some (UpdateUserDto.id bob_takes_alice_email)) (docs world2)
  = Some (1, bob_doc) ∧
  outage world2 = None ∧
  update bob_takes_alice_email world2
  = (Throw (JsError "E11000 duplicate key error index: email"), world2) ∧
  ¬ (∃ r w', update bob_takes_alice_email world2 = (Ok r, w')).
Proof.
  assert (update bob_takes_alice_email world2
          = (Throw (JsError "E11000 duplicate key error index: email"), world2))
    as Hrun.
  { vm_compute. reflexivity. }
  split_and!.
  - exact find_bob_by_id.
  - reflexivity.
  - exact Hrun.
  - intros (r & w' & Hok). rewrite Hrun in Hok. discriminate Hok.
Qed.

(** C9 (amended), on Alice's update (accepted), on the update for an
    unknown id, and on Bob asking for Alice's email (refused). *)
Lemma updateUser_returns_submitted_fields_witness :
  (∃ r w',
     update alice_update world1 = (Ok r, w') ∧
     UpdateUserResponse.data r = {[ "id" := "0"; "password" := "N3w-Secret!" ]} ∧
     docs w' !! 0 ≠ Some (UpdateUserResponse.data r)) ∧
  update nobody_update world1 = (Throw NotUpdated, world1) ∧
  (∃ e, update bob_takes_alice_email world2 = (Throw e, world2)).
Proof.
  destruct (updateUser_returns_submitted_fields alice_update world1 eq_refl)
    as [Hex _].
  destruct (updateUser_returns_submitted_fields nobody_update world1 eq_refl)
    as (_ & Habs & _).
  destruct (updateUser_returns_submitted_fields bob_takes_alice_email world2
              eq_refl)
    as (_ & _ & Href).
  split_and!.
  - destruct (Hex 0 alice_doc (find_alice_by "_id" (Some "0") eq_refl)
                alice_update_accepted)
      as (r & w' & Hrun & Hdata & _ & Hne).
    exists r, w'. split_and!; [exact Hrun|by rewrite Hdata|by apply Hne].
  - apply Habs. by apply find_nobody_by.
  - exact (Href 1 bob_doc find_bob_by_id bob_takes_alice_email_refused).
Defined.

(** C10, on Alice's registration and on her login. *)
Lemma responses_carry_password_hash_witness :
  RegisterUserResponse.data alice_registered !! "password"
  = Some "$2b$ASecret123!" ∧
  ∃ r h, login alice_login world1 = (Ok r, world1) ∧
         LoginUserResponse.user r !! "password" = Some h ∧
         compareSync "Secret123!" h = true.
Proof.
  split.
  - exact (proj1 (proj1 (responses_carry_password_hash cfg)
                    alice world0 world1 alice_registered register_alice)).
  - assert (login alice_login world1
            = (Ok (LoginUserResponse.mk alice_doc alice_token
                     "The user logged in correctly"), world1)) as Hrun.
    { vm_compute. reflexivity. }
    destruct (proj2 (responses_carry_password_hash cfg)
                alice_login world1 world1 _ Hrun) as (h & Hh & Hc & _).
    eexists _, h. split; [exact Hrun|]. by split.
Defined.

(** On Alice's registration: the collection gains her document and
    nothing else. *)
Lemma registerUser_persists_request_witness :
  docs world1 = docs world0 ++ [alice_doc] ∧
  alice_doc !! "email" = Some "a@x.com" ∧
  alice_doc !! "password" = Some "$2b$ASecret123!" ∧
  alice_doc !! "username" = Some "alice".
Proof.
  destruct (registerUser_persists_request cfg alice world0 world1
              alice_registered register_alice)
    as (Hdocs & Hmail & Hpw & Hrest & _).
  split_and!; [exact Hdocs|exact Hmail|exact Hpw|].
  etrans; [by apply (Hrest "username")|reflexivity].
Defined.

(** On Bob registering after Alice (a new email) and on Alice registering
    again (a stored email). *)
Lemma registerUser_succeeds_iff_witness :
  (∃ r w', register bob world1 = (Ok r, w')) ∧
  ¬ (∃ r w', register alice world1 = (Ok r, w')).
Proof.
  split.
  - apply (registerUser_succeeds_iff cfg bob world1 eq_refl). split.
    + reflexivity.
    + by apply find_nobody_by.
  - intros Hex.
    apply (registerUser_succeeds_iff cfg alice world1 eq_refl) in Hex as [_ Hf].
    change (find_by "email" (Some "a@x.com") (docs world1) = None) in Hf.
    by rewrite (find_alice_by "email" (Some "a@x.com") eq_refl) in Hf.
Defined.

(** On Alice logging in with her password and with another one. *)
Lemma loginUser_succeeds_iff_witness :
  (∃ r w', login alice_login world1 = (Ok r, w')) ∧
  ¬ (∃ r w', login (LoginUserDto.mk "a@x.com" "secret123") world1 = (Ok r, w')).
Proof.
  split.
  - apply (loginUser_succeeds_iff cfg alice_login world1). split; [reflexivity|].
    exists 0, alice_doc, "$2b$ASecret123!". split_and!; [|reflexivity..].
    by apply find_alice_by.
  - intros Hex.
    apply (loginUser_succeeds_iff cfg (LoginUserDto.mk "a@x.com" "secret123")
             world1) in Hex as (_ & i & u & h & Hf & Hh & Hc).
    change (find_by "email" (Some "a@x.com") (docs world1) = Some (i, u)) in Hf.
    rewrite (find_alice_by "email" (Some "a@x.com") eq_refl) in Hf.
    injection Hf as <- <-. vm_compute in Hh. injection Hh as <-.
    vm_compute in Hc. discriminate Hc.
Defined.

(** On Alice's registration token, two minutes after she registered. *)
Lemma registerUser_token_verifies_witness :
  ∃ r', verify alice_token (elapse 120 world1) = (Ok r', elapse 120 world1) ∧
        VerifyUserResponse.user r'
        = JwtPayload.mk "0" (Some "a@x.com") (Some "alice").
Proof.
  exact (registerUser_token_verifies cfg alice world0 world1 alice_registered
           120 eq_refl alice_live register_alice).
Defined.

(** On Alice's token, issued at 1000 for an hour: verified at 4000, it is
    renewed, and the renewed token still verifies at 7000, long after the
    first one has expired. *)
Lemma verifyUser_renews_session_witness :
  ∃ r1 r2,
    verify alice_token (elapse 3000 world1) = (Ok r1, elapse 3000 world1) ∧
    verify (VerifyUserResponse.token r1) (elapse 3000 (elapse 3000 world1))
    = (Ok r2, elapse 3000 (elapse 3000 world1)) ∧
    VerifyUserResponse.user r2
    = JwtPayload.mk "0" (Some "a@x.com") (Some "alice") ∧
    fst (verify alice_token (elapse 3000 (elapse 3000 world1)))
    = Throw (RpcException 400 "jwt expired").
Proof.
  destruct (verifyUser_renews_session cfg alice_token alice_claims
              (elapse 3000 world1) 3000)
    as (r1 & r2 & H1 & _ & H2 & Hu).
  - reflexivity.
  - intros t [= <-]. unfold ttl. lia.
  - vm_compute. reflexivity.
  - exists r1, r2. split_and!; [exact H1|exact H2|exact Hu|].
    vm_compute. reflexivity.
Defined.

(** On Alice's payload: the token signed at 1000 is refused at 4600. *)
Lemma verifyUser_refuses_expired_witness :
  ∃ t,
    signJWT cfg (JwtPayload.mk "0" (Some "a@x.com") (Some "alice")) world0
    = (Ok t, world0) ∧
    fst (verify t (elapse 3600 world0)) = Throw (RpcException 400 "jwt expired").
Proof.
  destruct (verifyUser_refuses_expired cfg
              (JwtPayload.mk "0" (Some "a@x.com") (Some "alice")) world0
              3600 3600 eq_refl eq_refl (le_n _))
    as (t & Hs & Hv).
  exists t. split; [exact Hs|]. unfold verify. by rewrite Hv.
Defined.

Lemma alice_history_timeless : Forall timeless alice_history.
Proof. repeat constructor. Qed.

(** On Alice's registration token: after she has changed her password
    and the store has gone down, it verifies as it would have at the
    start. *)
Lemma verifyUser_unaffected_by_history_witness :
  fst (verify alice_token (after_all cfg alice_history world0))
  = fst (verify alice_token world0).
Proof.
  exact (verifyUser_unaffected_by_history cfg alice_token alice_history world0
           alice_history_timeless).
Defined.

(** On Alice registering twice and on an update for an unknown id. *)
Lemma failed_call_writes_nothing_witness :
  docs (snd (register alice world1)) = docs world1 ∧
  docs (snd (update nobody_update world1)) = docs world1.
Proof.
  destruct (failed_call_writes_nothing cfg world1) as (Hreg & _ & _ & _ & Hupd).
  split.
  - apply (Hreg alice AlreadyExists). vm_compute. reflexivity.
  - apply (Hupd nobody_update NotUpdated). vm_compute. reflexivity.
Defined.

(** On Alice's login and on the verification of her token. *)
Lemma loginUser_verifyUser_read_only_witness :
  snd (login alice_login world1) = world1 ∧
  snd (verify alice_token world1) = world1.
Proof.
  destruct (loginUser_verifyUser_read_only cfg world1) as [Hlogin Hverify].
  split.
  - destruct (Hlogin alice_login) as (_ & _ & Hsame).
    eapply Hsame. vm_compute. reflexivity.
  - destruct (Hverify alice_token) as (_ & _ & Hsame).
    eapply Hsame. vm_compute. reflexivity.
Defined.

(** On Alice's login (nothing logged) and on a login with a wrong
    password (one entry logged). *)
Lemma guarded_methods_log_failures_only_witness :
  logged (snd (login alice_login world1)) = [] ∧
  ∃ e0, logged (snd (login (LoginUserDto.mk "a@x.com" "secret123") world1))
        = [e0] ∧
        message e0 = "User/Password not valid".
Proof.
  destruct (guarded_methods_log_failures_only cfg world1) as (_ & Hlogin & _).
  split.
  - destruct (Hlogin alice_login) as [Hok _].
    eapply Hok. vm_compute. reflexivity.
  - destruct (Hlogin (LoginUserDto.mk "a@x.com" "secret123")) as [_ Hfail].
    destruct (Hfail InvalidCredentials) as (e0 & He0 & Hlog).
    { vm_compute. reflexivity. }
    exists e0. split; [exact Hlog|]. by injection He0 as <-.
Defined.

(** On Bob registering and Alice logging in while the store is down. *)
Lemma guarded_methods_during_outage_witness :
  fst (register bob world_down)
  = Throw (RpcException 400 "connect ECONNREFUSED") ∧
  fst (login alice_login world_down)
  = Throw (RpcException 400 "connect ECONNREFUSED") ∧
  fst (change alice_change world_down)
  = Throw (RpcException 400 "connect ECONNREFUSED").
Proof.
  destruct (guarded_methods_during_outage cfg world_down "connect ECONNREFUSED"
              eq_refl) as (Hreg & Hlogin & Hchange).
  split_and!.
  - unfold register. by rewrite Hreg.
  - unfold login. by rewrite Hlogin.
  - unfold change. rewrite (Hchange alice_change alice_claims); [done|].
    vm_compute. reflexivity.
Defined.

(** On Alice's request and the same request under a token that only
    shares her username, with a repeated password that does not match:
    Alice's hash is replaced all the same. *)
Lemma changePassword_goes_by_username_witness :
  change (ChangePasswordDto.mk namesake_token "Secret123!" "N3w-Secret!" "typo")
    world1
  = change alice_change world1 ∧
  ∃ r w', change alice_change world1 = (Ok r, w').
Proof.
  split.
  - apply (changePassword_goes_by_username cfg
             (ChangePasswordDto.mk namesake_token "Secret123!" "N3w-Secret!" "typo")
             alice_change
             (Claims.mk (JwtPayload.mk "9" (Some "b@x.com") (Some "alice")) None
                1000 (Some 4600))
             alice_claims world1).
    + vm_compute. reflexivity.
    + exact alice_token_verifies.
    + reflexivity.
    + reflexivity.
    + reflexivity.
  - eexists _, _. vm_compute. reflexivity.
Defined.

(** On Alice's history: her stored password is a hash at the end of it. *)
Lemma history_keeps_passwords_hashed_witness :
  passwords_hashed (docs (after_all cfg alice_history world0)).
Proof.
  apply (history_keeps_passwords_hashed cfg alice_history world0).
  - reflexivity.
  - repeat constructor.
Defined.

(** On Alice's login, before and after Bob registers. *)
Lemma registerUser_keeps_logins_witness :
  ∃ r', login alice_login (snd (register bob world1))
        = (Ok r', snd (register bob world1)) ∧
        LoginUserResponse.user r' = alice_doc.
Proof.
  assert (login alice_login world1
          = (Ok (LoginUserResponse.mk alice_doc alice_token
                   "The user logged in correctly"), world1)) as Hrun.
  { vm_compute. reflexivity. }
  exact (registerUser_keeps_logins cfg alice_login _ bob world1 world1 Hrun).
Defined.

Lemma alice_move_accepted :
  update_accepted (docs world1) 0 alice_doc
    (UpdateUserDto.to_object alice_move ∪ alice_doc).
Proof.
  rewrite world1_docs. split; [reflexivity|]. simpl. apply not_elem_of_nil.
Qed.

Lemma alice_rename_accepted :
  update_accepted (docs world1) 0 alice_doc
    (UpdateUserDto.to_object alice_rename ∪ alice_doc).
Proof.
  rewrite world1_docs. split; [reflexivity|]. simpl. apply not_elem_of_nil.
Qed.

(** On Alice moving to another email address. *)
Lemma updateUser_moves_login_witness :
  (∃ r, login (LoginUserDto.mk "alice@y.org" "Secret123!")
          (snd (update alice_move world1))
        = (Ok r, snd (update alice_move world1))) ∧
  fst (login alice_login (snd (update alice_move world1)))
  = Throw InvalidCredentials.
Proof.
  destruct (updateUser_moves_login cfg alice_move world1 0 alice_doc
              "$2b$ASecret123!" "alice@y.org" "Secret123!")
    as [(r & Hr & _) Hold].
  - reflexivity.
  - exact world1_store_ok.
  - by apply find_alice_by.
  - exact alice_move_accepted.
  - reflexivity.
  - reflexivity.
  - reflexivity.
  - reflexivity.
  - split; [by exists r|].
    apply (Hold "a@x.com"); [reflexivity|done].
Defined.

(** On Alice renaming herself and then using the token from her
    registration to change her password. *)
Lemma changePassword_after_rename_witness :
  fst (change alice_change (snd (update alice_rename world1)))
  = Throw UserNotValid.
Proof.
  refine (proj1 (changePassword_after_rename cfg alice_rename alice_change
                   alice_claims world1 0 alice_doc "alice" "alicia"
                   eq_refl _ alice_rename_accepted eq_refl _ _
                   alice_token_verifies eq_refl)).
  - by apply find_alice_by.
  - done.
  - intros j e Hj Hne. rewrite world1_docs in Hj.
    destruct j as [|j]; [done|]. by destruct j.
Defined.

End Scenario.
